(** * emergent: parameter persistence and network-view navigation

    A shallow embedding of the [params] persistence code (OpenJSON, SaveJSON,
    WriteGoCode, SaveGoCode of Params, Sel, Sheet, Sheets, Set and Sets), of
    the [netview] record navigation, view-parameter defaults and variable
    list, and of the sheet applier, with the properties proved about them. *)

From Stdlib Require Import ZArith Lia Bool List Ascii String.
From Stdlib Require Import Floats.SpecFloat.
From stdpp Require Import base option list sorting gmap strings.

Local Open Scope Z_scope.

(** ** Go's [int] on a 64-bit platform *)

Module GoInt.

Definition min_int : Z := - 2 ^ 63.
Definition max_int : Z := 2 ^ 63 - 1.

(** Two's-complement wrap-around of an arithmetic result. *)
Definition wrap (z : Z) : Z := (z + 2 ^ 63) mod 2 ^ 64 - 2 ^ 63.

Definition add (a b : Z) : Z := wrap (a + b).
Definition sub (a b : Z) : Z := wrap (a - b).

Definition in_range (z : Z) : Prop := min_int <= z <= max_int.

End GoInt.

(** ** Package netview *)

Module netview.

(** [float32] values, as IEEE-754 data.  Only the comparison with zero
    and the assignment of constants are used by the code below. *)
Definition float32 : Type := spec_float.

(** The Go comparison [x == 0] on a float32: true for both zeros, false
    for NaN. *)
Definition f32_is_zero (x : float32) : bool := SFeqb x (S754_zero false).

(** The constants [.9], [.05] and [0.4] rounded to float32. *)
Definition f32_0_9 : float32 := S754_finite false 15099494 (-24).
Definition f32_0_05 : float32 := S754_finite false 13421773 (-28).
Definition f32_0_4 : float32 := S754_finite false 13421773 (-25).

(** [Params] of params.go.  [NetViewPtr] stands for the back pointer
    [NetView *NetView]; [None] is nil. *)
Record Params : Type := mkParams {
  MaxRecs : Z;
  UnitSize : float32;
  LayNmSize : float32;
  ColorMap : string;
  ZeroAlpha : float32;
  NetViewPtr : option nat
}.

Definition set_MaxRecs (nv : Params) (v : Z) : Params :=
  mkParams v nv.(UnitSize) nv.(LayNmSize) nv.(ColorMap) nv.(ZeroAlpha)
           nv.(NetViewPtr).
Definition set_UnitSize (nv : Params) (v : float32) : Params :=
  mkParams nv.(MaxRecs) v nv.(LayNmSize) nv.(ColorMap) nv.(ZeroAlpha)
           nv.(NetViewPtr).
Definition set_LayNmSize (nv : Params) (v : float32) : Params :=
  mkParams nv.(MaxRecs) nv.(UnitSize) v nv.(ColorMap) nv.(ZeroAlpha)
           nv.(NetViewPtr).
Definition set_ZeroAlpha (nv : Params) (v : float32) : Params :=
  mkParams nv.(MaxRecs) nv.(UnitSize) nv.(LayNmSize) nv.(ColorMap) v
           nv.(NetViewPtr).
Definition set_ColorMap (nv : Params) (v : string) : Params :=
  mkParams nv.(MaxRecs) nv.(UnitSize) nv.(LayNmSize) v nv.(ZeroAlpha)
           nv.(NetViewPtr).

Definition Params_Defaults (nv : Params) : Params :=
  let nv := if nv.(MaxRecs) =? 0 then set_MaxRecs nv 100 else nv in
  let nv := if f32_is_zero nv.(UnitSize)
            then set_UnitSize nv f32_0_9 else nv in
  let nv := if f32_is_zero nv.(LayNmSize)
            then set_LayNmSize nv f32_0_05 else nv in
  let nv := if f32_is_zero nv.(ZeroAlpha)
            then set_ZeroAlpha nv f32_0_4 else nv in
  let nv := if String.eqb nv.(ColorMap) ""
            then set_ColorMap nv "ColdHot" else nv in
  nv.

(** The part of [NetView] that record navigation reads and writes:
    [RecNo] and [Data.Ring.Len]. *)
Record FIx : Type := mkFIx { Len : Z }.
Record NetData : Type := mkNetData { Ring : FIx }.
Record NetView : Type := mkNetView { RecNo : Z; Data : NetData }.

Definition set_RecNo (nv : NetView) (r : Z) : NetView :=
  mkNetView r nv.(Data).

Definition RingLen (nv : NetView) : Z := nv.(Data).(Ring).(Len).

Definition RecFastBkwd (nv : NetView) : NetView * bool :=
  if nv.(RecNo) =? 0 then (nv, false)
  else
    let nv := if nv.(RecNo) <? 0
              then set_RecNo nv (GoInt.sub (RingLen nv) 11)
              else set_RecNo nv (GoInt.sub nv.(RecNo) 11) in
    let nv := if nv.(RecNo) <? 0 then set_RecNo nv 0 else nv in
    (nv, true).

Definition RecBkwd (nv : NetView) : NetView * bool :=
  if nv.(RecNo) =? 0 then (nv, false)
  else
    let nv := if nv.(RecNo) <? 0
              then set_RecNo nv (GoInt.sub (RingLen nv) 1)
              else set_RecNo nv (GoInt.sub nv.(RecNo) 1) in
    let nv := if nv.(RecNo) <? 0 then set_RecNo nv 0 else nv in
    (nv, true).

Definition RecFwd (nv : NetView) : NetView * bool :=
  if nv.(RecNo) >=? GoInt.sub (RingLen nv) 1
  then (set_RecNo nv (GoInt.sub (RingLen nv) 1), false)
  else if nv.(RecNo) <? 0 then (nv, false)
  else
    let nv := set_RecNo nv (GoInt.add nv.(RecNo) 1) in
    let nv := if nv.(RecNo) >=? GoInt.sub (RingLen nv) 1
              then set_RecNo nv (GoInt.sub (RingLen nv) 1) else nv in
    (nv, true).

Definition RecFastFwd (nv : NetView) : NetView * bool :=
  if nv.(RecNo) >=? GoInt.sub (RingLen nv) 1
  then (set_RecNo nv (GoInt.sub (RingLen nv) 1), false)
  else if nv.(RecNo) <? 0 then (nv, false)
  else
    let nv := set_RecNo nv (GoInt.add nv.(RecNo) 10) in
    let nv := if nv.(RecNo) >=? GoInt.sub (RingLen nv) 1
              then set_RecNo nv (GoInt.sub (RingLen nv) 1) else nv in
    (nv, true).

Definition RecTrackLatest (nv : NetView) : NetView * bool :=
  if nv.(RecNo) =? (-1) then (nv, false)
  else (set_RecNo nv (-1), true).

(** The five navigation operations. *)
Definition rec_ops : list (NetView -> NetView * bool) :=
  [RecFastBkwd; RecBkwd; RecFwd; RecFastFwd; RecTrackLatest].

(** The documented range of [RecNo]: -1 or [0..Data.Ring.Len-1]. *)
Definition RecNo_ok (nv : NetView) : Prop :=
  nv.(RecNo) = -1 \/ 0 <= nv.(RecNo) <= RingLen nv - 1.

(** The parts of [emer.Network], [emer.Layer] and [emer.Prjn] that the
    variable list reads.  A nil network interface is [None]. *)
Record Prjn : Type := mkPrjn { SynVarNames : list string }.
Record Layer : Type := mkLayer {
  UnitVarNames : list string;
  RecvPrjns : list Prjn;
  SendPrjns : list Prjn
}.
Definition Network : Type := option (list Layer).

(** The loop of [NetFirstLayPrjn] over the layers [li = 0 .. nlay-1]. *)
Fixpoint first_prjn (lays : list Layer) : option Prjn :=
  match lays with
  | [] => None
  | ly :: rest =>
      match ly.(RecvPrjns) with
      | p :: _ => Some p
      | [] =>
          match ly.(SendPrjns) with
          | p :: _ => Some p
          | [] => first_prjn rest
          end
      end
  end.

Definition NetFirstLayPrjn (net : Network) : option Layer * option Prjn :=
  match net with
  | None => (None, None)
  | Some lays =>
      match lays with
      | [] => (None, None)
      | lay0 :: _ => (Some lay0, first_prjn lays)
      end
  end.

(** Go's builtin [copy(dst, src)]: the first [min (len dst) (len src)]
    elements of [dst] are overwritten. *)
Definition copy {A} (dst src : list A) : list A :=
  take (length dst) src ++ drop (length src) dst.

(** One round of the loop that stores the projection variables. *)
Definition store_prjnvar (prjnvars : list string) (st : nat)
    (nvars : list string) (pi : nat) : list string :=
  let v := default ""%string (prjnvars !! pi) in
  let nvars := <[(st + 2 * pi)%nat := ("r." +:+ v)%string]> nvars in
  <[(st + 2 * pi + 1)%nat := ("s." +:+ v)%string]> nvars.

Definition NLayers (lays : list Layer) : nat := length lays.

Definition NetVarsList (net : Network) (layEven : bool) : list string :=
  match net with
  | None => []
  | Some lays =>
      if Nat.eqb (NLayers lays) 0 then []
      else
        match NetFirstLayPrjn net with
        | (None, _) => []
        | (Some lay, prjn) =>
            let unvars := lay.(UnitVarNames) in
            let prjnvars := match prjn with
                            | Some p => p.(SynVarNames)
                            | None => []
                            end in
            let ulen := length unvars in
            let ulen := if layEven && negb (Nat.eqb (ulen mod 2) 0)
                        then S ulen else ulen in
            let tlen := (ulen + 2 * length prjnvars)%nat in
            let nvars := replicate tlen ""%string in
            let nvars := copy nvars unvars in
            let st := ulen in
            foldl (store_prjnvar prjnvars st) nvars
                  (seq 0 (length prjnvars))
        end
  end.

(** The unit and synapse variable names that [NetVarsList] reads. *)
Definition unit_vars (net : Network) : list string :=
  match (NetFirstLayPrjn net).1 with
  | Some lay => lay.(UnitVarNames)
  | None => []
  end.

Definition syn_vars (net : Network) : list string :=
  match (NetFirstLayPrjn net).2 with
  | Some p => p.(SynVarNames)
  | None => []
  end.

(** The two entries of a synapse variable, receiving side first. *)
Definition rs_entries (v : string) : list string :=
  [("r." +:+ v)%string; ("s." +:+ v)%string].

(** What the list is said to be: the unit variables, one empty slot when
    their number is odd, then an "r." and an "s." entry per synapse
    variable. *)
Definition vars_layout (unvars prjnvars : list string) : list string :=
  unvars ++ (if Nat.odd (length unvars) then [""%string] else [])
         ++ flat_map rs_entries prjnvars.

(** [HasLayers], on the network of the view. *)
Definition HasLayers (net : Network) : bool :=
  match net with
  | None => false
  | Some lays => if Nat.eqb (NLayers lays) 0 then false else true
  end.

(** A layer without projections, neither received nor sent. *)
Definition no_prjns (ly : Layer) : Prop :=
  ly.(RecvPrjns) = [] /\ ly.(SendPrjns) = [].

(** [minmax.F32] and [minmax.Range32] of the etable library: a range,
    and a range with a flag per end that says whether the end is fixed.
    [SetMin] and [SetMax] store the value and set the flag. *)
Record F32 : Type := mkF32 { Min : float32; Max : float32 }.

Record Range32 : Type := mkRange32 {
  Range_F32 : F32;
  FixMin : bool;
  FixMax : bool
}.

Definition Range32_SetMin (rr : Range32) (min : float32) : Range32 :=
  mkRange32 (mkF32 min rr.(Range_F32).(Max)) true rr.(FixMax).

Definition Range32_SetMax (rr : Range32) (max : float32) : Range32 :=
  mkRange32 (mkF32 rr.(Range_F32).(Min) max) rr.(FixMin) true.

(** The constants [-1] and [1] as float32. *)
Definition f32_minus_1 : float32 := S754_finite true 8388608 (-23).
Definition f32_1 : float32 := S754_finite false 8388608 (-23).

(** [VarParams] of params.go. *)
Record VarParams : Type := mkVarParams {
  Var : string;
  ZeroCtr : bool;
  Range : Range32;
  MinMax : F32
}.

Definition VarParams_Defaults (vp : VarParams) : VarParams :=
  if f32_is_zero vp.(Range).(Range_F32).(Max)
     && f32_is_zero vp.(Range).(Range_F32).(Min)
  then
    let vp := mkVarParams vp.(Var) true vp.(Range) vp.(MinMax) in
    let vp := mkVarParams vp.(Var) vp.(ZeroCtr)
                          (Range32_SetMin vp.(Range) f32_minus_1)
                          vp.(MinMax) in
    mkVarParams vp.(Var) vp.(ZeroCtr) (Range32_SetMax vp.(Range) f32_1)
                vp.(MinMax)
  else vp.

(** The zero value of [VarParams] with the name set: [&VarParams{Var: nm}]. *)
Definition zero_f32 : float32 := S754_zero false.
Definition new_VarParams (nm : string) : VarParams :=
  mkVarParams nm false (mkRange32 (mkF32 zero_f32 zero_f32) false false)
              (mkF32 zero_f32 zero_f32).

(** The part of [NetView] that [VarsListUpdate] reads and writes. *)
Record VarsView : Type := mkVarsView {
  Net : Network;
  Vars : list string;
  VarParamsMap : gmap string VarParams
}.

(** [nm[2:]], for a name of at least two bytes. *)
Definition drop2 (nm : string) : string :=
  match nm with
  | String _ (String _ r) => r
  | _ => EmptyString
  end.

Section VarsListUpdate.

(** [Layer.UnitVarProps], [Prjn.SynVarProps] and [VarParams.SetProps],
    which are declared or called here and defined elsewhere. *)
Variable UnitVarProps : Layer -> gmap string string.
Variable SynVarProps : Prjn -> gmap string string.
Variable SetProps : VarParams -> string -> VarParams.

(** The property tag of a name: a missing key of a Go map reads as the
    empty string. *)
Definition var_tag (unprops prjnprops : gmap string string)
    (nm : string) : string :=
  if String.prefix "r." nm || String.prefix "s." nm
  then default ""%string (prjnprops !! drop2 nm)
  else default ""%string (unprops !! nm).

(** The body of the loop over [nv.Vars]: the parameters of one name. *)
Definition var_params (unprops prjnprops : gmap string string)
    (nm : string) : VarParams :=
  let vp := new_VarParams nm in
  let vp := VarParams_Defaults vp in
  let vtag := var_tag unprops prjnprops nm in
  if String.eqb vtag "" then vp else SetProps vp vtag.

(** [VarsListUpdate]; [None] is the panic of a method call on a nil
    interface, [lay.UnitVarProps()] with no layer. *)
Definition VarsListUpdate (nv : VarsView) : option VarsView :=
  let nvars := NetVarsList nv.(Net) true in
  if Nat.eqb (length nvars) (length nv.(Vars)) then Some nv
  else
    let nv := mkVarsView nv.(Net) nvars ∅ in
    match NetFirstLayPrjn nv.(Net) with
    | (None, _) => None
    | (Some lay, prjn) =>
        let unprops := UnitVarProps lay in
        let prjnprops := match prjn with
                         | Some p => SynVarProps p
                         | None => ∅
                         end in
        Some (mkVarsView nv.(Net) nv.(Vars)
                (foldl (fun m nm => <[nm := var_params unprops prjnprops nm]> m)
                       nv.(VarParamsMap) nv.(Vars)))
    end.

End VarsListUpdate.

End netview.

(** ** Go strings: sorting, indentation, UTF-8 *)

Module GoStr.

Definition nl : string := String "010"%char "".
Definition tab : string := String "009"%char "".

Definition concat (l : list string) : string := foldr String.append "" l.

(** [indent.TabBytes(n)]: [n] tab characters. *)
Definition TabBytes (n : nat) : string := concat (replicate n tab).

(** [sort.StringSlice(l).Sort()]: the strings in ascending bytewise
    order.  The result of a sort is the one sorted arrangement of its
    input, whatever the algorithm. *)
Definition SortStrings (l : list string) : list string :=
  merge_sort String.le l.

Definition byte (c : ascii) : N := N_of_ascii c.

Definition between (lo hi : N) (c : ascii) : bool :=
  ((lo <=? byte c) && (byte c <=? hi))%N.

(** A UTF-8 continuation byte, 0x80..0xBF. *)
Definition cont (c : ascii) : bool := between 128 191 c.

(** For a leading byte of a multi-byte encoding: the range accepted for
    the second byte and the length of the encoding (the table of Go's
    unicode/utf8).  [None] for a byte that cannot lead. *)
Definition lead (c0 : N) : option (N * N * nat) :=
  if ((194 <=? c0) && (c0 <=? 223))%N then Some (128, 191, 2%nat)%N
  else if (c0 =? 224)%N then Some (160, 191, 3%nat)%N
  else if ((225 <=? c0) && (c0 <=? 236))%N then Some (128, 191, 3%nat)%N
  else if (c0 =? 237)%N then Some (128, 159, 3%nat)%N
  else if ((238 <=? c0) && (c0 <=? 239))%N then Some (128, 191, 3%nat)%N
  else if (c0 =? 240)%N then Some (144, 191, 4%nat)%N
  else if ((241 <=? c0) && (c0 <=? 243))%N then Some (128, 191, 4%nat)%N
  else if (c0 =? 244)%N then Some (128, 143, 4%nat)%N
  else None.

(** U+FFFD, the replacement rune, in UTF-8: EF BF BD. *)
Definition replacement : string :=
  String "239"%char (String "191"%char (String "189"%char "")).

(** The string that encoding/json writes for a Go string: "String values
    encode as JSON strings coerced to valid UTF-8, replacing invalid bytes
    with the Unicode replacement rune."  Each byte that does not start a
    valid encoding is replaced on its own. *)
Fixpoint toValidUTF8 (s : string) : string :=
  match s with
  | EmptyString => EmptyString
  | String c0 s1 =>
      if (byte c0 <? 128)%N then String c0 (toValidUTF8 s1)
      else
        match lead (byte c0), s1 with
        | Some (lo, hi, 2%nat), String c1 s2 =>
            if between lo hi c1
            then String c0 (String c1 (toValidUTF8 s2))
            else replacement +:+ toValidUTF8 s1
        | Some (lo, hi, 3%nat), String c1 (String c2 s3) =>
            if between lo hi c1 && cont c2
            then String c0 (String c1 (String c2 (toValidUTF8 s3)))
            else replacement +:+ toValidUTF8 s1
        | Some (lo, hi, 4%nat), String c1 (String c2 (String c3 s4)) =>
            if between lo hi c1 && cont c2 && cont c3
            then String c0 (String c1 (String c2 (String c3
                   (toValidUTF8 s4))))
            else replacement +:+ toValidUTF8 s1
        | _, _ => replacement +:+ toValidUTF8 s1
        end
  end.

Definition ValidUTF8 (s : string) : Prop := toValidUTF8 s = s.

(** The folding of field names in encoding/json ([foldName]): an ASCII
    letter goes to upper case, and any other rune to the smallest rune of
    its class under Unicode simple folding.  Two runes outside ASCII fold
    to an ASCII letter: U+017F, the long s (bytes C5 BF), to [S], and
    U+212A, the Kelvin sign (bytes E2 84 AA), to [K].  The other runes are
    kept as they are: folding them cannot make a key equal to a name of
    ASCII letters, which is what keys are compared with here. *)
Definition upper_char (c : ascii) : ascii :=
  if between 97 122 c then ascii_of_N (byte c - 32) else c.

Fixpoint foldName (s : string) : string :=
  match s with
  | EmptyString => EmptyString
  | String c0 s1 =>
      match s1 with
      | String c1 s2 =>
          if ((byte c0 =? 197) && (byte c1 =? 191))%N
          then String "S"%char (foldName s2)
          else
            match s2 with
            | String c2 s3 =>
                if ((byte c0 =? 226) && (byte c1 =? 132)
                    && (byte c2 =? 170))%N
                then String "K"%char (foldName s3)
                else String (upper_char c0) (foldName s1)
            | EmptyString => String (upper_char c0) (foldName s1)
            end
      | EmptyString => String (upper_char c0) (foldName s1)
      end
  end.

End GoStr.

(** ** Package params *)

Module params.

Import GoStr.

(** *** The data model *)

(** Modelled from the spec: the type declarations of Params, Sel, Sheet,
    Sheets, Set and Sets, which the persistence code reads through
    [pr.Sel], [pr.Desc], [pr.Params], [pr.Name] and [pr.Sheets].  Params
    is a mapping from path strings to value strings, a Sel a pattern, a
    description and a Params, a Sheet an ordered sequence of Sel, Sheets a
    mapping from names to Sheet, a Set a name, a description and a Sheets,
    and Sets an ordered sequence of Set.  Pointers are read through: a nil
    pointer is not told apart from the zero value it would point to. *)
Abbreviation Params := (gmap string string).

Record Sel : Type := mkSel {
  Sel_Sel : string;
  Sel_Desc : string;
  Sel_Params : Params
}.

Abbreviation Sheet := (list Sel).
Abbreviation Sheets := (gmap string (list Sel)).

Record Set_ : Type := mkSet {
  Set_Name : string;
  Set_Desc : string;
  Set_Sheets : Sheets
}.

Abbreviation Sets := (list Set_).

Definition zero_Sel : Sel := mkSel "" "" ∅.
Definition zero_Set : Set_ := mkSet "" "" ∅.

(** *** Errors and the file system *)

Inductive error : Type :=
  | ErrNotExist
  | ErrPermission
  | ErrNoSpace
  | ErrInvalid
  | SyntaxError
  | UnmarshalTypeError (value : string) (gotype : string).

(** A JSON document, as the tree that its text denotes.  An object keeps
    its members in the order of the text, duplicates included. *)
#[local] Unset Elimination Schemes.
Inductive JSON : Type :=
  | JNull
  | JBool (b : bool)
  | JNumber (literal : string)
  | JString (s : string)
  | JArray (elems : list JSON)
  | JObject (members : list (string * JSON)).
#[local] Set Elimination Schemes.

(** The bytes of a file: either a well-formed JSON text, given by the
    document it denotes, or bytes that are not a JSON text. *)
Inductive FileData : Type :=
  | NotJSON (bytes : string)
  | JSONDoc (doc : JSON).

(** The file system: the files that exist, the paths that cannot be
    opened, the number of writes the device still accepts, and a count
    of the I/O operations that failed so far. *)
Record World : Type := mkWorld {
  files : gmap string FileData;
  locked : gset string;
  writes_left : nat;
  failed_ops : nat
}.

Definition failed (w : World) : World :=
  mkWorld w.(files) w.(locked) w.(writes_left) (S w.(failed_ops)).

Definition ioutil_ReadFile (filename : string) (w : World)
    : World * FileData * option error :=
  if decide (filename ∈ w.(locked))
  then (failed w, NotJSON "", Some ErrPermission)
  else match w.(files) !! filename with
       | None => (failed w, NotJSON "", Some ErrNotExist)
       | Some b => (w, b, None)
       end.

(** [os.Create]: the file is created or truncated; the handle is its
    path, [None] for a nil [*os.File]. *)
Definition os_Create (filename : string) (w : World)
    : World * option string * option error :=
  if decide (filename ∈ w.(locked))
  then (failed w, None, Some ErrPermission)
  else (mkWorld (<[filename := NotJSON ""]> w.(files)) w.(locked)
                w.(writes_left) w.(failed_ops),
        Some filename, None).

Definition File_Write (fp : option string) (b : string) (w : World)
    : World * option error :=
  match fp with
  | None => (failed w, Some ErrInvalid)
  | Some name =>
      match w.(writes_left) with
      | O => (failed w, Some ErrNoSpace)
      | S n =>
          let old := match w.(files) !! name with
                     | Some (NotJSON s) => s
                     | _ => ""
                     end in
          (mkWorld (<[name := NotJSON (old +:+ b)]> w.(files)) w.(locked)
                   n w.(failed_ops), None)
      end
  end.

Definition File_Close (fp : option string) (w : World)
    : World * option error :=
  match fp with
  | None => (failed w, Some ErrInvalid)
  | Some _ => (w, None)
  end.

(** [ioutil.WriteFile]: open with truncation, one write of the whole
    data, close; the first error is returned. *)
Definition ioutil_WriteFile (filename : string) (data : FileData)
    (w : World) : World * option error :=
  match os_Create filename w with
  | (w, _, Some e) => (w, Some e)
  | (w, fp, None) =>
      let '(w, err) :=
        match w.(writes_left) with
        | O => (failed w, Some ErrNoSpace)
        | S n => (mkWorld (<[filename := data]> w.(files)) w.(locked)
                          n w.(failed_ops), None)
        end in
      let '(w, err1) := File_Close fp w in
      (w, match err with Some e => Some e | None => err1 end)
  end.

(** *** io.Writer *)

Class Writer (W : Type) := Write : W -> string -> W * option error.

(** [bytes.Buffer]: a write appends and cannot fail. *)
Definition Buffer : Type := string.
#[global] Instance Buffer_Writer : Writer Buffer :=
  fun buf b => (buf +:+ b, None).

(** An [*os.File] together with the file system it writes to. *)
Record OSFile : Type := mkOSFile { handle : option string; world : World }.
#[global] Instance OSFile_Writer : Writer OSFile :=
  fun f b => let '(w, err) := File_Write f.(handle) b f.(world) in
             (mkOSFile f.(handle) w, err).

(** [w.Write(b)] as a statement: both results are dropped. *)
Definition Write_ {W} `{Writer W} (w : W) (b : string) : W := (Write w b).1.

(** *** The order of a [range] over a map *)

(** Go leaves the order in which [range] visits the keys of a map open.
    A [RangeOrder] fixes one: it rearranges the list of keys. *)
Record RangeOrder : Type := mkRangeOrder {
  arrange : list string -> list string;
  arrange_perm : forall l, arrange l ≡ₚ l
}.

Definition range_keys {V} (ro : RangeOrder) (m : gmap string V)
    : list string :=
  ro.(arrange) (map_to_list m).*1.

Definition range_ascending : RangeOrder :=
  {| arrange := fun l => l; arrange_perm := fun l => Permutation_refl l |}.

Definition range_reversed : RangeOrder :=
  {| arrange := reverse; arrange_perm := reverse_Permutation |}.

(** *** encoding/json *)

Definition JSON_kind (j : JSON) : string :=
  match j with
  | JNull => "null"
  | JBool _ => "bool"
  | JNumber _ => "number"
  | JString _ => "string"
  | JArray _ => "array"
  | JObject _ => "object"
  end.

(** Unmarshal keeps the earliest type error and goes on. *)
Definition saveError (saved new : option error) : option error :=
  match saved with
  | Some e => Some e
  | None => new
  end.

(** An object key names a struct field if it is the field's name, or
    equals it under the folding of names: up to the case of letters, with
    the long s standing for [s] and the Kelvin sign for [k]. *)
Definition field_match (field key : string) : bool :=
  String.eqb field key || String.eqb (foldName field) (foldName key).

(** Decoding into a Go value.  Each decoder takes the JSON value and the
    value that the destination holds, and returns the new value of the
    destination and the earliest type error.  "If a JSON value is not
    appropriate for a given target type, Unmarshal skips that field and
    completes the unmarshaling as best it can."  A JSON null leaves a
    string or a struct as it is and sets a map or a slice to nil. *)
Definition string_fromJSON (j : JSON) (old : string)
    : string * option error :=
  match j with
  | JString s => (s, None)
  | JNull => (old, None)
  | _ => (old, Some (UnmarshalTypeError (JSON_kind j) "string"))
  end.

(** Into a map: "Unmarshal reuses the existing map, keeping existing
    entries", and stores each member, decoded into a fresh element. *)
Definition map_fromJSON {V} (elem : JSON -> V * option error)
    (members : list (string * JSON)) (old : gmap string V)
    : gmap string V * option error :=
  foldl (fun '(m, err) '(k, vj) =>
           let '(v, e) := elem vj in (<[k := v]> m, saveError err e))
        (old, None) members.

(** Into a slice: "Unmarshal resets the slice length to zero and then
    appends each element to the slice." *)
Definition slice_fromJSON {T} (elem : JSON -> T * option error)
    (elems : list JSON) : list T * option error :=
  foldl (fun '(l, err) ej =>
           let '(x, e) := elem ej in (l ++ [x], saveError err e))
        ([], None) elems.

Definition Params_fromJSON (j : JSON) (old : Params)
    : Params * option error :=
  match j with
  | JObject members =>
      map_fromJSON (fun vj => string_fromJSON vj "") members old
  | JNull => (∅, None)
  | _ => (old, Some (UnmarshalTypeError (JSON_kind j) "params.Params"))
  end.

(** Into a struct: the members that name a field are decoded into that
    field; other members are ignored, other fields are left alone. *)
Definition Sel_member (acc : Sel * option error) (member : string * JSON)
    : Sel * option error :=
  let '(s, err) := acc in
  let '(k, vj) := member in
  if field_match "Sel" k then
    let '(v, e) := string_fromJSON vj s.(Sel_Sel) in
    (mkSel v s.(Sel_Desc) s.(Sel_Params), saveError err e)
  else if field_match "Desc" k then
    let '(v, e) := string_fromJSON vj s.(Sel_Desc) in
    (mkSel s.(Sel_Sel) v s.(Sel_Params), saveError err e)
  else if field_match "Params" k then
    let '(v, e) := Params_fromJSON vj s.(Sel_Params) in
    (mkSel s.(Sel_Sel) s.(Sel_Desc) v, saveError err e)
  else (s, err).

Definition Sel_fromJSON (j : JSON) (old : Sel) : Sel * option error :=
  match j with
  | JObject members => foldl Sel_member (old, None) members
  | JNull => (old, None)
  | _ => (old, Some (UnmarshalTypeError (JSON_kind j) "params.Sel"))
  end.

Definition Sheet_fromJSON (j : JSON) (old : Sheet)
    : Sheet * option error :=
  match j with
  | JArray elems => slice_fromJSON (fun ej => Sel_fromJSON ej zero_Sel) elems
  | JNull => ([], None)
  | _ => (old, Some (UnmarshalTypeError (JSON_kind j) "params.Sheet"))
  end.

Definition Sheets_fromJSON (j : JSON) (old : Sheets)
    : Sheets * option error :=
  match j with
  | JObject members =>
      map_fromJSON (fun vj => Sheet_fromJSON vj []) members old
  | JNull => (∅, None)
  | _ => (old, Some (UnmarshalTypeError (JSON_kind j) "params.Sheets"))
  end.

Definition Set_member (acc : Set_ * option error) (member : string * JSON)
    : Set_ * option error :=
  let '(s, err) := acc in
  let '(k, vj) := member in
  if field_match "Name" k then
    let '(v, e) := string_fromJSON vj s.(Set_Name) in
    (mkSet v s.(Set_Desc) s.(Set_Sheets), saveError err e)
  else if field_match "Desc" k then
    let '(v, e) := string_fromJSON vj s.(Set_Desc) in
    (mkSet s.(Set_Name) v s.(Set_Sheets), saveError err e)
  else if field_match "Sheets" k then
    let '(v, e) := Sheets_fromJSON vj s.(Set_Sheets) in
    (mkSet s.(Set_Name) s.(Set_Desc) v, saveError err e)
  else (s, err).

Definition Set_fromJSON (j : JSON) (old : Set_) : Set_ * option error :=
  match j with
  | JObject members => foldl Set_member (old, None) members
  | JNull => (old, None)
  | _ => (old, Some (UnmarshalTypeError (JSON_kind j) "params.Set"))
  end.

Definition Sets_fromJSON (j : JSON) (old : Sets) : Sets * option error :=
  match j with
  | JArray elems => slice_fromJSON (fun ej => Set_fromJSON ej zero_Set) elems
  | JNull => ([], None)
  | _ => (old, Some (UnmarshalTypeError (JSON_kind j) "params.Sets"))
  end.

(** [json.Unmarshal(b, pr)]: the text is checked first, and bytes that
    are not a JSON text give a syntax error before anything is stored. *)
Definition json_Unmarshal {T} (fromJSON : JSON -> T -> T * option error)
    (b : FileData) (pr : T) : T * option error :=
  match b with
  | NotJSON _ => (pr, Some SyntaxError)
  | JSONDoc j => fromJSON j pr
  end.

Section Encoding.

Variable ro : RangeOrder.

(** Encoding.  Strings are coerced to valid UTF-8; the members of a map
    are written "sorted by key". *)
Definition string_toJSON (s : string) : JSON := JString (toValidUTF8 s).

Definition map_members {V} (elem : V -> JSON) (zero : V)
    (m : gmap string V) : list (string * JSON) :=
  map (fun k => (toValidUTF8 k, elem (default zero (m !! k))))
      (SortStrings (range_keys ro m)).

(** A map is written as an object.  Go writes a nil map as null and an
    empty one as an object without members; a [gmap] without entries
    stands for both and is written as the object, so what is said of the
    saved text of a map that may be nil is said of maps with an entry. *)
Definition map_toJSON {V} (elem : V -> JSON) (zero : V)
    (m : gmap string V) : JSON :=
  JObject (map_members elem zero m).

Definition Params_toJSON (pr : Params) : JSON :=
  map_toJSON string_toJSON "" pr.

Definition Sel_toJSON (s : Sel) : JSON :=
  JObject [("Sel", string_toJSON s.(Sel_Sel));
           ("Desc", string_toJSON s.(Sel_Desc));
           ("Params", Params_toJSON s.(Sel_Params))].

Definition Sheet_toJSON (sh : Sheet) : JSON :=
  JArray (map Sel_toJSON sh).

Definition Sheets_toJSON (ss : Sheets) : JSON :=
  map_toJSON Sheet_toJSON [] ss.

Definition Set_toJSON (s : Set_) : JSON :=
  JObject [("Name", string_toJSON s.(Set_Name));
           ("Desc", string_toJSON s.(Set_Desc));
           ("Sheets", Sheets_toJSON s.(Set_Sheets))].

Definition Sets_toJSON (ss : Sets) : JSON :=
  JArray (map Set_toJSON ss).

(** [json.MarshalIndent(pr, "", "  ")]: for these types it has no
    error to report. *)
Definition json_MarshalIndent {T} (toJSON : T -> JSON) (pr : T)
    : FileData * option error :=
  (JSONDoc (toJSON pr), None).

End Encoding.

(** *** The persistence code *)

Definition dquote : string := String "034"%char "".

Section Persistence.

(** [fmt]'s verb %q, the string quoted and escaped in Go syntax. *)
Variable Quote : string -> string.

Variable ro : RangeOrder.

Definition WriteGoPrelude {W} `{Writer W} (w : W) (varNm : string) : W :=
  let w := Write_ w ("// File generated by params.SaveGoCode"
                     +:+ nl +:+ nl) in
  let w := Write_ w ("package main" +:+ nl +:+ nl) in
  let w := Write_ w ("import " +:+ dquote
                     +:+ "github.com/emer/emergent/params"
                     +:+ dquote) in
  Write_ w (nl +:+ nl +:+ "var " +:+ varNm +:+ " = ").

(** The dialog and log calls of the error branches have no effect on
    the receiver, the files or the result, and are left out. *)

(** Params *)

Definition Params_OpenJSON (pr : Params) (filename : string) (w : World)
    : World * Params * option error :=
  let pr := (∅ : Params) in (* *pr = make(Params) // reset *)
  match ioutil_ReadFile filename w with
  | (w, _, Some err) => (w, pr, Some err)
  | (w, b, None) =>
      let '(pr, err) := json_Unmarshal Params_fromJSON b pr in (w, pr, err)
  end.

Definition Params_SaveJSON (pr : Params) (filename : string) (w : World)
    : World * option error :=
  match json_MarshalIndent (Params_toJSON ro) pr with
  | (_, Some err) => (w, Some err)
  | (b, None) => ioutil_WriteFile filename b w
  end.

Definition Params_WriteGoCode {W} `{Writer W} (pr : Params) (w : W)
    (depth : nat) : W :=
  let w := Write_ w ("params.Params{" +:+ nl) in
  let depth := S depth in
  let paths := range_keys ro pr in
  let paths := SortStrings paths in
  let w := foldl (fun w pt =>
                    let pv := default "" (pr !! pt) in
                    let w := Write_ w (TabBytes depth) in
                    Write_ w (Quote pt +:+ ": " +:+ Quote pv
                              +:+ "," +:+ nl))
                 w paths in
  let depth := pred depth in
  let w := Write_ w (TabBytes depth) in
  Write_ w "}".

Definition Params_StringGoCode (pr : Params) : string :=
  let buf : Buffer := "" in
  Params_WriteGoCode pr buf 0.

Definition Params_SaveGoCode (pr : Params) (filename : string) (w : World)
    : World * option error :=
  match os_Create filename w with
  | (w, fp, Some err) =>
      let '(w, _) := File_Close fp w in (* defer fp.Close() *)
      (w, Some err)
  | (w, fp, None) =>
      let f := mkOSFile fp w in
      let f := WriteGoPrelude f "SavedParams" in
      let f := Params_WriteGoCode pr f 0 in
      let '(w, _) := File_Close f.(handle) f.(world) in
      (w, None)
  end.

(** Sel *)

Definition Sel_OpenJSON (pr : Sel) (filename : string) (w : World)
    : World * Sel * option error :=
  match ioutil_ReadFile filename w with
  | (w, _, Some err) => (w, pr, Some err)
  | (w, b, None) =>
      let '(pr, err) := json_Unmarshal Sel_fromJSON b pr in (w, pr, err)
  end.

Definition Sel_SaveJSON (pr : Sel) (filename : string) (w : World)
    : World * option error :=
  match json_MarshalIndent (Sel_toJSON ro) pr with
  | (_, Some err) => (w, Some err)
  | (b, None) => ioutil_WriteFile filename b w
  end.

Definition Sel_WriteGoCode {W} `{Writer W} (pr : Sel) (w : W)
    (depth : nat) : W :=
  let w := Write_ w ("Sel: " +:+ Quote pr.(Sel_Sel) +:+ ", Desc: "
                     +:+ Quote pr.(Sel_Desc) +:+ "," +:+ nl) in
  let depth := S depth in
  let w := Write_ w (TabBytes depth) in
  let w := Write_ w "Params: " in
  Params_WriteGoCode pr.(Sel_Params) w depth.

Definition Sel_StringGoCode (pr : Sel) : string :=
  let buf : Buffer := "" in
  Sel_WriteGoCode pr buf 0.

Definition Sel_SaveGoCode (pr : Sel) (filename : string) (w : World)
    : World * option error :=
  match os_Create filename w with
  | (w, fp, Some err) =>
      let '(w, _) := File_Close fp w in (* defer fp.Close() *)
      (w, Some err)
  | (w, fp, None) =>
      let f := mkOSFile fp w in
      let f := WriteGoPrelude f "SavedParamsSel" in
      let f := Sel_WriteGoCode pr f 0 in
      let '(w, _) := File_Close f.(handle) f.(world) in
      (w, None)
  end.

(** Sheet *)

Definition Sheet_OpenJSON (pr : Sheet) (filename : string) (w : World)
    : World * Sheet * option error :=
  let pr := ([] : Sheet) in (* *pr = make(Sheet, 0) // reset *)
  match ioutil_ReadFile filename w with
  | (w, _, Some err) => (w, pr, Some err)
  | (w, b, None) =>
      let '(pr, err) := json_Unmarshal Sheet_fromJSON b pr in (w, pr, err)
  end.

Definition Sheet_SaveJSON (pr : Sheet) (filename : string) (w : World)
    : World * option error :=
  match json_MarshalIndent (Sheet_toJSON ro) pr with
  | (_, Some err) => (w, Some err)
  | (b, None) => ioutil_WriteFile filename b w
  end.

Definition Sheet_WriteGoCode {W} `{Writer W} (pr : Sheet) (w : W)
    (depth : nat) : W :=
  let w := Write_ w ("params.Sheet{" +:+ nl) in
  let depth := S depth in
  let w := foldl (fun w pv =>
                    let w := Write_ w (TabBytes depth) in
                    let w := Write_ w "{" in
                    let w := Sel_WriteGoCode pv w depth in
                    Write_ w ("}," +:+ nl))
                 w pr in
  let depth := pred depth in
  let w := Write_ w (TabBytes depth) in
  Write_ w ("}," +:+ nl).

Definition Sheet_StringGoCode (pr : Sheet) : string :=
  let buf : Buffer := "" in
  Sheet_WriteGoCode pr buf 0.

Definition Sheet_SaveGoCode (pr : Sheet) (filename : string) (w : World)
    : World * option error :=
  match os_Create filename w with
  | (w, fp, Some err) =>
      let '(w, _) := File_Close fp w in (* defer fp.Close() *)
      (w, Some err)
  | (w, fp, None) =>
      let f := mkOSFile fp w in
      let f := WriteGoPrelude f "SavedParamsSheet" in
      let f := Sheet_WriteGoCode pr f 0 in
      let '(w, _) := File_Close f.(handle) f.(world) in
      (w, None)
  end.

(** Sheets *)

Definition Sheets_OpenJSON (pr : Sheets) (filename : string) (w : World)
    : World * Sheets * option error :=
  let pr := (∅ : Sheets) in (* *pr = make(Sheets) // reset *)
  match ioutil_ReadFile filename w with
  | (w, _, Some err) => (w, pr, Some err)
  | (w, b, None) =>
      let '(pr, err) := json_Unmarshal Sheets_fromJSON b pr in (w, pr, err)
  end.

Definition Sheets_SaveJSON (pr : Sheets) (filename : string) (w : World)
    : World * option error :=
  match json_MarshalIndent (Sheets_toJSON ro) pr with
  | (_, Some err) => (w, Some err)
  | (b, None) => ioutil_WriteFile filename b w
  end.

Definition Sheets_WriteGoCode {W} `{Writer W} (pr : Sheets) (w : W)
    (depth : nat) : W :=
  let w := Write_ w ("params.Sheets{" +:+ nl) in
  let depth := S depth in
  let nms := range_keys ro pr in
  let nms := SortStrings nms in
  let w := foldl (fun w nm =>
                    let pv := default [] (pr !! nm) in
                    let w := Write_ w (TabBytes depth) in
                    let w := Write_ w (Quote nm +:+ ": &") in
                    Sheet_WriteGoCode pv w depth)
                 w nms in
  let depth := pred depth in
  let w := Write_ w (TabBytes depth) in
  Write_ w "}".

Definition Sheets_StringGoCode (pr : Sheets) : string :=
  let buf : Buffer := "" in
  Sheets_WriteGoCode pr buf 0.

Definition Sheets_SaveGoCode (pr : Sheets) (filename : string) (w : World)
    : World * option error :=
  match os_Create filename w with
  | (w, fp, Some err) =>
      let '(w, _) := File_Close fp w in (* defer fp.Close() *)
      (w, Some err)
  | (w, fp, None) =>
      let f := mkOSFile fp w in
      let f := WriteGoPrelude f "SavedParamsSheets" in
      let f := Sheets_WriteGoCode pr f 0 in
      let '(w, _) := File_Close f.(handle) f.(world) in
      (w, None)
  end.

(** Set *)

Definition Set_OpenJSON (pr : Set_) (filename : string) (w : World)
    : World * Set_ * option error :=
  match ioutil_ReadFile filename w with
  | (w, _, Some err) => (w, pr, Some err)
  | (w, b, None) =>
      let '(pr, err) := json_Unmarshal Set_fromJSON b pr in (w, pr, err)
  end.

Definition Set_SaveJSON (pr : Set_) (filename : string) (w : World)
    : World * option error :=
  match json_MarshalIndent (Set_toJSON ro) pr with
  | (_, Some err) => (w, Some err)
  | (b, None) => ioutil_WriteFile filename b w
  end.

Definition Set_WriteGoCode {W} `{Writer W} (pr : Set_) (w : W)
    (depth : nat) : W :=
  let w := Write_ w ("Name: " +:+ Quote pr.(Set_Name) +:+ ", Desc: "
                     +:+ Quote pr.(Set_Desc) +:+ ", Sheets: ") in
  Sheets_WriteGoCode pr.(Set_Sheets) w depth.

Definition Set_StringGoCode (pr : Set_) : string :=
  let buf : Buffer := "" in
  Set_WriteGoCode pr buf 0.

Definition Set_SaveGoCode (pr : Set_) (filename : string) (w : World)
    : World * option error :=
  match os_Create filename w with
  | (w, fp, Some err) =>
      let '(w, _) := File_Close fp w in (* defer fp.Close() *)
      (w, Some err)
  | (w, fp, None) =>
      let f := mkOSFile fp w in
      let f := WriteGoPrelude f "SavedParamsSet" in
      let f := Set_WriteGoCode pr f 0 in
      let '(w, _) := File_Close f.(handle) f.(world) in
      (w, None)
  end.

(** Sets *)

Definition Sets_OpenJSON (pr : Sets) (filename : string) (w : World)
    : World * Sets * option error :=
  let pr := ([] : Sets) in (* *pr = make(Sets, 0, 10) // reset *)
  match ioutil_ReadFile filename w with
  | (w, _, Some err) => (w, pr, Some err)
  | (w, b, None) =>
      let '(pr, err) := json_Unmarshal Sets_fromJSON b pr in (w, pr, err)
  end.

Definition Sets_SaveJSON (pr : Sets) (filename : string) (w : World)
    : World * option error :=
  match json_MarshalIndent (Sets_toJSON ro) pr with
  | (_, Some err) => (w, Some err)
  | (b, None) => ioutil_WriteFile filename b w
  end.

Definition Sets_WriteGoCode {W} `{Writer W} (pr : Sets) (w : W)
    (depth : nat) : W :=
  let w := Write_ w ("params.Sets{" +:+ nl) in
  let depth := S depth in
  let w := foldl (fun w st =>
                    let w := Write_ w (TabBytes depth) in
                    let w := Write_ w "{" in
                    let w := Set_WriteGoCode st w depth in
                    Write_ w ("}," +:+ nl))
                 w pr in
  let depth := pred depth in
  let w := Write_ w (TabBytes depth) in
  Write_ w ("}" +:+ nl).

Definition Sets_StringGoCode (pr : Sets) : string :=
  let buf : Buffer := "" in
  Sets_WriteGoCode pr buf 0.

Definition Sets_SaveGoCode (pr : Sets) (filename : string) (w : World)
    : World * option error :=
  match os_Create filename w with
  | (w, fp, Some err) =>
      let '(w, _) := File_Close fp w in (* defer fp.Close() *)
      (w, Some err)
  | (w, fp, None) =>
      let f := mkOSFile fp w in
      let f := WriteGoPrelude f "SavedParamsSets" in
      let f := Sets_WriteGoCode pr f 0 in
      let '(w, _) := File_Close f.(handle) f.(world) in
      (w, None)
  end.

(** The text that WriteGoCode emits for one key of a Params and of a
    Sheets, at the given depth. *)
Definition Params_entry (pr : Params) (depth : nat) (pt : string) : string :=
  TabBytes depth +:+ Quote pt +:+ ": " +:+ Quote (default "" (pr !! pt))
  +:+ "," +:+ nl.

Definition Sheets_entry (pr : Sheets) (depth : nat) (nm : string) : string :=
  TabBytes depth +:+ Quote nm +:+ ": &"
  +:+ Sheet_WriteGoCode (default [] (pr !! nm)) ("" : Buffer) depth.

(** A value of any of the six types, and the save methods on it. *)
Inductive Tree : Type :=
  | TParams (pr : Params)
  | TSel (pr : Sel)
  | TSheet (pr : Sheet)
  | TSheets (pr : Sheets)
  | TSet (pr : Set_)
  | TSets (pr : Sets).

Definition SaveJSON (v : Tree) (filename : string) (w : World)
    : World * option error :=
  match v with
  | TParams pr => Params_SaveJSON pr filename w
  | TSel pr => Sel_SaveJSON pr filename w
  | TSheet pr => Sheet_SaveJSON pr filename w
  | TSheets pr => Sheets_SaveJSON pr filename w
  | TSet pr => Set_SaveJSON pr filename w
  | TSets pr => Sets_SaveJSON pr filename w
  end.

Definition SaveGoCode (v : Tree) (filename : string) (w : World)
    : World * option error :=
  match v with
  | TParams pr => Params_SaveGoCode pr filename w
  | TSel pr => Sel_SaveGoCode pr filename w
  | TSheet pr => Sheet_SaveGoCode pr filename w
  | TSheets pr => Sheets_SaveGoCode pr filename w
  | TSet pr => Set_SaveGoCode pr filename w
  | TSets pr => Sets_SaveGoCode pr filename w
  end.

End Persistence.

(** A save method reports every failure if it returns an error whenever
    one of the I/O operations it performed failed. *)
Definition reports_every_failure
    (save : Tree -> string -> World -> World * option error) : Prop :=
  forall v filename w,
    (save v filename w).1.(failed_ops) <> w.(failed_ops) ->
    (save v filename w).2 <> None.

(** A quoting function to run the code with: the string between double
    quotes, with a backslash before each backslash and double quote. *)
Fixpoint escape (s : string) : string :=
  match s with
  | EmptyString => EmptyString
  | String c r =>
      if (byte c =? 34)%N || (byte c =? 92)%N
      then String "092"%char (String c (escape r))
      else String c (escape r)
  end.

Definition QuoteASCII (s : string) : string := dquote +:+ escape s +:+ dquote.

(** A tree all of whose strings (names, descriptions, patterns, paths and
    values) are valid UTF-8. *)
Definition valid_Params (pr : Params) : Prop :=
  map_Forall (fun k v => ValidUTF8 k /\ ValidUTF8 v) pr.

Definition valid_Sel (s : Sel) : Prop :=
  ValidUTF8 s.(Sel_Sel) /\ ValidUTF8 s.(Sel_Desc) /\
  valid_Params s.(Sel_Params).

Definition valid_Sheets (ss : Sheets) : Prop :=
  map_Forall (fun k sh => ValidUTF8 k /\ Forall valid_Sel sh) ss.

Definition valid_Set (s : Set_) : Prop :=
  ValidUTF8 s.(Set_Name) /\ ValidUTF8 s.(Set_Desc) /\
  valid_Sheets s.(Set_Sheets).

Definition valid_Sets (ss : Sets) : Prop := Forall valid_Set ss.

#[global] Instance ValidUTF8_dec (s : string) : Decision (ValidUTF8 s).
Proof. unfold ValidUTF8. apply _. Defined.

#[global] Instance valid_Params_dec (pr : Params) : Decision (valid_Params pr).
Proof. unfold valid_Params. apply _. Defined.

#[global] Instance valid_Sel_dec (s : Sel) : Decision (valid_Sel s).
Proof. unfold valid_Sel. apply _. Defined.

#[global] Instance valid_Sheets_dec (ss : Sheets) : Decision (valid_Sheets ss).
Proof. unfold valid_Sheets. apply _. Defined.

#[global] Instance valid_Set_dec (s : Set_) : Decision (valid_Set s).
Proof. unfold valid_Set. apply _. Defined.

#[global] Instance valid_Sets_dec (ss : Sets) : Decision (valid_Sets ss).
Proof. unfold valid_Sets. apply _. Defined.

(** A name that is not valid UTF-8: the single byte 0xFF. *)
Definition bad_name : string := String "255"%char "".

(** A Sets value to run the code on. *)
Definition example_Sets : Sets :=
  [mkSet "Base" "baseline"
     (<["Network" :=
          [mkSel "Layer" "all layers"
             (<["Act.Gain" := "1.5"]> (<["Learn.Lrate" := "0.02"]> ∅));
           mkSel ".Hidden" "" ∅]]> (<["Env" := []]> ∅));
   mkSet "NoMomentum" "" ∅].

(** A writer that keeps the text written and counts the writes. *)
Record Tally : Type := mkTally { text : string; writes : nat }.
#[global] Instance Tally_Writer : Writer Tally :=
  fun t b => (mkTally (t.(text) +:+ b) (S t.(writes)), None).

Section AnyTree.

Variable Quote : string -> string.
Variable ro : RangeOrder.

(** WriteGoCode and StringGoCode on a value of any of the six types, and
    the variable name that its SaveGoCode passes to WriteGoPrelude. *)
Definition WriteGoCode {W} `{Writer W} (v : Tree) (w : W) (depth : nat) : W :=
  match v with
  | TParams pr => Params_WriteGoCode Quote ro pr w depth
  | TSel pr => Sel_WriteGoCode Quote ro pr w depth
  | TSheet pr => Sheet_WriteGoCode Quote ro pr w depth
  | TSheets pr => Sheets_WriteGoCode Quote ro pr w depth
  | TSet pr => Set_WriteGoCode Quote ro pr w depth
  | TSets pr => Sets_WriteGoCode Quote ro pr w depth
  end.

Definition StringGoCode (v : Tree) : string :=
  match v with
  | TParams pr => Params_StringGoCode Quote ro pr
  | TSel pr => Sel_StringGoCode Quote ro pr
  | TSheet pr => Sheet_StringGoCode Quote ro pr
  | TSheets pr => Sheets_StringGoCode Quote ro pr
  | TSet pr => Set_StringGoCode Quote ro pr
  | TSets pr => Sets_StringGoCode Quote ro pr
  end.

Definition SavedVarNm (v : Tree) : string :=
  match v with
  | TParams _ => "SavedParams"
  | TSel _ => "SavedParamsSel"
  | TSheet _ => "SavedParamsSheet"
  | TSheets _ => "SavedParamsSheets"
  | TSet _ => "SavedParamsSet"
  | TSets _ => "SavedParamsSets"
  end.

(** What SaveGoCode writes after it created the file, on a writer that
    cannot fail: the text, and the number of writes it takes. *)
Definition SaveGoCode_tally (v : Tree) : Tally :=
  WriteGoCode v (WriteGoPrelude (mkTally "" 0) (SavedVarNm v)) 0.

End AnyTree.

(** The state of a file written so far, as long as the device accepted
    every write. *)
Definition written (filename : string) (w0 : World) (f : OSFile)
    (t : Tally) : Prop :=
  (writes t <= writes_left w0)%nat ->
  handle f = Some filename /\
  files (world f) !! filename = Some (NotJSON (text t)) /\
  writes_left (world f) = (writes_left w0 - writes t)%nat /\
  failed_ops (world f) = failed_ops w0 /\
  forall other, other <> filename ->
                files (world f) !! other = files w0 !! other.

End params.

(** ** The applier *)

Module applier.

Import params.

(** Modelled from the spec: the styleable target capability and the Apply
    operation (sections 3, 4.1 and 4.2), whose code is not among the
    sources; of the applier only the declaration of [Layer.ApplyParams] is.
    A target exposes a type name, an instance name, class tags, and fields
    addressed by path; a leaf field is numeric, boolean or an enumeration
    and is read and written as a string. *)
Inductive Kind : Type :=
  | KNumeric
  | KBool
  | KEnum (names : list string).

Record Field : Type := mkField { kind : Kind; value : string }.

Record Target : Type := mkTarget {
  TypeName : string;
  Name : string;
  Class : list string;
  Fields : gmap string Field
}.

(** Modelled from the spec: the pattern grammar of a Sel, absent from
    the sources like the rest of the applier.  A bare identifier matches
    the type, [.identifier] a class, [#identifier] the instance name. *)
Inductive SelKind : Type := ByType | ByClass | ByName.

Definition parse_pattern (p : string) : SelKind * string :=
  match p with
  | String "."%char id => (ByClass, id)
  | String "#"%char id => (ByName, id)
  | _ => (ByType, p)
  end.

(** Modelled from the spec: the specificity order of the applier,
    type < class < name. *)
Definition specificity (k : SelKind) : nat :=
  match k with
  | ByType => 0
  | ByClass => 1
  | ByName => 2
  end.

Definition matches (tgt : Target) (p : string) : bool :=
  match parse_pattern p with
  | (ByType, id) => String.eqb id tgt.(TypeName)
  | (ByClass, id) => bool_decide (id ∈ tgt.(Class))
  | (ByName, id) => String.eqb id tgt.(Name)
  end.

(** Modelled from the spec: step 2 of Apply, of which no code is present.
    The working map is keyed by path; a later match of equal or higher
    specificity overwrites an earlier value. *)
Definition merge_param (sp : nat) (path v : string)
    (acc : gmap string (nat * string)) : gmap string (nat * string) :=
  match acc !! path with
  | Some (sp', _) => if (sp' <=? sp)%nat then <[path := (sp, v)]> acc else acc
  | None => <[path := (sp, v)]> acc
  end.

Definition merge_Sel (tgt : Target) (acc : gmap string (nat * string))
    (s : Sel) : gmap string (nat * string) :=
  if matches tgt s.(Sel_Sel)
  then map_fold (merge_param (specificity (parse_pattern s.(Sel_Sel)).1))
                acc s.(Sel_Params)
  else acc.

Definition resolve (sheet : Sheet) (tgt : Target) : gmap string string :=
  snd <$> foldl (merge_Sel tgt) ∅ sheet.

(** Modelled from the spec: what the sheet asks for, in the words of
    section 3 and of step 2, without the working map.  The Sel at position
    [i] of the sheet matches the target and gives [path] the value [v],
    with the specificity [sp] of its pattern. *)
Definition gives (sheet : Sheet) (tgt : Target) (path : string)
    (i sp : nat) (v : string) : Prop :=
  exists s, sheet !! i = Some s /\ matches tgt s.(Sel_Sel) = true /\
            s.(Sel_Params) !! path = Some v /\
            sp = specificity (parse_pattern s.(Sel_Sel)).1.

(** Some matching Sel of the sheet sets the path. *)
Definition offered (sheet : Sheet) (tgt : Target) (path : string) : Prop :=
  exists i sp v, gives sheet tgt path i sp v.

(** Modelled from the spec: "resolution uses specificity first, then
    listed order (later wins ties at equal specificity)".  The value [v]
    is the one chosen for [path]: a matching Sel gives it, and every
    matching Sel that sets the path is less specific, or as specific and
    not listed after it. *)
Definition chosen (sheet : Sheet) (tgt : Target) (path v : string) : Prop :=
  exists i sp,
    gives sheet tgt path i sp v /\
    forall j sp' v', gives sheet tgt path j sp' v' ->
                     (sp' < sp \/ (sp' = sp /\ j <= i))%nat.

(** Modelled from the spec: the state of an Apply pass, of which no code
    is present: the target, whether a path was set, the failed paths, and
    the confirmation lines (path, old value, new value). *)
Record Pass : Type := mkPass {
  target : Target;
  changed : bool;
  failures : list string;
  report : list (string * string * string)
}.

Definition set_field (tgt : Target) (path : string) (f : Field) : Target :=
  mkTarget tgt.(TypeName) tgt.(Name) tgt.(Class) (<[path := f]> tgt.(Fields)).

Section Apply.

(** Whether a string converts to a value of the kind of a field.  The
    spec names the kinds and leaves the syntax of the values open, so the
    conversion is a parameter. *)
Variable convertible : Kind -> string -> bool.

(** Modelled from the spec: steps 3 and 4 of Apply for one path, of which
    no code is present.  The path is resolved, the value converted and
    assigned; a failure is recorded and the pass goes on. *)
Definition assign (reportMode : bool) (st : Pass) (pv : string * string)
    : Pass :=
  let '(path, v) := pv in
  match st.(target).(Fields) !! path with
  | Some f =>
      if convertible f.(kind) v
      then mkPass (set_field st.(target) path (mkField f.(kind) v)) true
                  st.(failures)
                  (if reportMode then st.(report) ++ [(path, f.(value), v)]
                   else st.(report))
      else mkPass st.(target) st.(changed) (st.(failures) ++ [path])
                  st.(report)
  | None =>
      mkPass st.(target) st.(changed) (st.(failures) ++ [path]) st.(report)
  end.

Definition run (sheet : Sheet) (tgt : Target) (reportMode : bool) : Pass :=
  foldl (assign reportMode) (mkPass tgt false [] [])
        (map_to_list (resolve sheet tgt)).

(** Modelled from the spec: [Apply(sheet, target, reportMode)], whose
    code (the implementation behind [Layer.ApplyParams]) is not among the
    sources.  It returns the target after the pass, [changed], and the
    aggregated error, [None] when no path failed. *)
Definition Apply (sheet : Sheet) (tgt : Target) (reportMode : bool)
    : Target * bool * option (list string) :=
  let st := run sheet tgt reportMode in
  (st.(target), st.(changed),
   match st.(failures) with
   | [] => None
   | paths => Some paths
   end).

(** A path can be set on the target to a value: the path names a field
    and the value converts to the kind of the field. *)
Definition settable (tgt : Target) (path v : string) : bool :=
  match tgt.(Fields) !! path with
  | Some f => convertible f.(kind) v
  | None => false
  end.

End Apply.

(** Two targets whose fields have the same paths and kinds. *)
Definition same_kinds (t1 t2 : Target) : Prop :=
  forall p, kind <$> Fields t1 !! p = kind <$> Fields t2 !! p.

(** A conversion to run the applier with: a boolean is [true] or [false],
    an enumerant is one of the names, a number is a nonempty string of
    digits. *)
Fixpoint all_digits (s : string) : bool :=
  match s with
  | EmptyString => true
  | String c r => GoStr.between 48 57 c && all_digits r
  end.

Definition convertible_basic (k : Kind) (v : string) : bool :=
  match k with
  | KNumeric => negb (String.eqb v "") && all_digits v
  | KBool => String.eqb v "true" || String.eqb v "false"
  | KEnum names => bool_decide (v ∈ names)
  end.

End applier.

(** * Properties *)

(** ** netview: record navigation *)

Section RecordNavigation.
Import netview.

Lemma wrap_in_range (z : Z) : GoInt.in_range z -> GoInt.wrap z = z.
Proof.
  unfold GoInt.in_range, GoInt.min_int, GoInt.max_int, GoInt.wrap.
  intros Hz. rewrite Z.mod_small; lia.
Qed.

Variable nv : NetView.
Hypothesis Len_pos : 1 <= RingLen nv.
Hypothesis Len_fits : RingLen nv <= GoInt.max_int - 8.
Hypothesis RecNo_inv : RecNo_ok nv.

Local Ltac unwrap :=
  unfold GoInt.add, GoInt.sub;
  repeat (rewrite wrap_in_range
            by (unfold GoInt.in_range, GoInt.min_int, GoInt.max_int in *; lia)).

Local Ltac nav_case :=
  match goal with
  | |- context [if ?b then _ else _] =>
      let E := fresh "E" in
      destruct b eqn:E; simpl in *;
      try rewrite Z.geb_leb in E;
      first [ apply Z.eqb_eq in E | apply Z.eqb_neq in E
            | apply Z.ltb_lt in E | apply Z.ltb_ge in E
            | apply Z.leb_le in E | apply Z.leb_gt in E ]
  end.

Local Ltac nav_solve :=
  unfold RecNo_ok, RingLen, set_RecNo in *;
  destruct nv as [r [[n]]]; simpl in *;
  unfold GoInt.max_int in *;
  unwrap; repeat (nav_case; unwrap);
  repeat split; try intros; try lia; try congruence.

Lemma RecFastBkwd_ok :
  RecNo_ok (RecFastBkwd nv).1 /\ RingLen (RecFastBkwd nv).1 = RingLen nv /\
  ((RecFastBkwd nv).2 = true <-> RecNo (RecFastBkwd nv).1 <> RecNo nv).
Proof. unfold RecFastBkwd. nav_solve. Qed.

Lemma RecBkwd_ok :
  RecNo_ok (RecBkwd nv).1 /\ RingLen (RecBkwd nv).1 = RingLen nv /\
  ((RecBkwd nv).2 = true <-> RecNo (RecBkwd nv).1 <> RecNo nv).
Proof. unfold RecBkwd. nav_solve. Qed.

Lemma RecFwd_ok :
  RecNo_ok (RecFwd nv).1 /\ RingLen (RecFwd nv).1 = RingLen nv /\
  ((RecFwd nv).2 = true <-> RecNo (RecFwd nv).1 <> RecNo nv).
Proof. unfold RecFwd. nav_solve. Qed.

Lemma RecFastFwd_ok :
  RecNo_ok (RecFastFwd nv).1 /\ RingLen (RecFastFwd nv).1 = RingLen nv /\
  ((RecFastFwd nv).2 = true <-> RecNo (RecFastFwd nv).1 <> RecNo nv).
Proof. unfold RecFastFwd. nav_solve. Qed.

Lemma RecTrackLatest_ok :
  RecNo_ok (RecTrackLatest nv).1 /\
  RingLen (RecTrackLatest nv).1 = RingLen nv /\
  ((RecTrackLatest nv).2 = true <->
   RecNo (RecTrackLatest nv).1 <> RecNo nv).
Proof. unfold RecTrackLatest. nav_solve. Qed.

(** C8 (amended).  With a ring length of at least 1 and at most the
    largest [int] minus 8, and [RecNo] equal to -1 or in
    [0..Data.Ring.Len-1], each of RecFastBkwd, RecBkwd, RecFwd, RecFastFwd
    and RecTrackLatest leaves [RecNo] in that range, leaves the ring
    alone, and returns true exactly when it changed [RecNo]. *)
Theorem rec_navigation_keeps_RecNo_in_range
    (op : NetView -> NetView * bool) :
  In op rec_ops ->
  RecNo_ok (op nv).1 /\ RingLen (op nv).1 = RingLen nv /\
  ((op nv).2 = true <-> RecNo (op nv).1 <> RecNo nv).
Proof.
  unfold rec_ops. simpl.
  intros [<- | [<- | [<- | [<- | [<- | []]]]]].
  - apply RecFastBkwd_ok.
  - apply RecBkwd_ok.
  - apply RecFwd_ok.
  - apply RecFastFwd_ok.
  - apply RecTrackLatest_ok.
Qed.

End RecordNavigation.

(** RecFastFwd from record 15 of a ring of 20 records. *)
Lemma rec_navigation_keeps_RecNo_in_range_witness :
  let nv := netview.mkNetView 15 (netview.mkNetData (netview.mkFIx 20)) in
  netview.RecNo_ok (netview.RecFastFwd nv).1 /\
  netview.RingLen (netview.RecFastFwd nv).1 = netview.RingLen nv /\
  ((netview.RecFastFwd nv).2 = true <->
   netview.RecNo (netview.RecFastFwd nv).1 <> netview.RecNo nv).
Proof.
  intros nv.
  apply (rec_navigation_keeps_RecNo_in_range nv).
  - vm_compute. discriminate.
  - vm_compute. discriminate.
  - right. vm_compute. split; discriminate.
  - simpl. tauto.
Defined.

(** C8, counterexample.  With the largest [int] as ring length and
    [RecNo] five below it, [RecNo + 10] wraps around: RecFastFwd returns
    true and leaves a negative [RecNo] that is not -1. *)
Lemma RecFastFwd_wraps_at_largest_ring :
  let nv := netview.mkNetView (GoInt.max_int - 5)
                      (netview.mkNetData (netview.mkFIx GoInt.max_int)) in
  1 <= netview.RingLen nv /\ netview.RecNo_ok nv /\
  In netview.RecFastFwd netview.rec_ops /\
  netview.RecNo (netview.RecFastFwd nv).1 = GoInt.min_int + 4 /\
  (netview.RecFastFwd nv).2 = true /\
  ~ netview.RecNo_ok (netview.RecFastFwd nv).1.
Proof.
  assert (Hrec : netview.RecNo
                   (netview.RecFastFwd
                      (netview.mkNetView (GoInt.max_int - 5)
                         (netview.mkNetData (netview.mkFIx GoInt.max_int)))).1
                 = GoInt.min_int + 4) by (vm_compute; reflexivity).
  cbv zeta. split; [|split; [|split; [|split; [|split]]]].
  - vm_compute. discriminate.
  - right. vm_compute. split; discriminate.
  - cbn. tauto.
  - exact Hrec.
  - vm_compute. reflexivity.
  - unfold netview.RecNo_ok. rewrite Hrec.
    change (netview.RingLen _) with GoInt.max_int.
    unfold GoInt.min_int, GoInt.max_int. lia.
Qed.

(** ** netview: defaults of the view parameters *)

Section ViewDefaults.
Import netview.

Lemma defaults_not_zero :
  f32_is_zero f32_0_9 = false /\ f32_is_zero f32_0_05 = false /\
  f32_is_zero f32_0_4 = false.
Proof. repeat split; reflexivity. Qed.

Local Ltac defaults_step :=
  cbv beta iota zeta
      delta [set_MaxRecs set_UnitSize set_LayNmSize set_ZeroAlpha
             set_ColorMap MaxRecs UnitSize LayNmSize ZeroAlpha ColorMap
             NetViewPtr].

Lemma Params_Defaults_unfold (nv : Params) :
  Params_Defaults nv
  = mkParams (if MaxRecs nv =? 0 then 100 else MaxRecs nv)
      (if f32_is_zero (UnitSize nv) then f32_0_9 else UnitSize nv)
      (if f32_is_zero (LayNmSize nv) then f32_0_05 else LayNmSize nv)
      (if String.eqb (ColorMap nv) "" then "ColdHot"%string
       else ColorMap nv)
      (if f32_is_zero (ZeroAlpha nv) then f32_0_4 else ZeroAlpha nv)
      (NetViewPtr nv).
Proof.
  destruct nv as [m u l c z p]. unfold Params_Defaults. defaults_step.
  destruct (m =? 0); defaults_step;
    destruct (f32_is_zero u); defaults_step;
    destruct (f32_is_zero l); defaults_step;
    destruct (f32_is_zero z); defaults_step;
    destruct (String.eqb c ""); reflexivity.
Qed.

(** C9.  Params.Defaults assigns its default to a field exactly when the
    field holds its zero value (MaxRecs == 0, UnitSize == 0,
    LayNmSize == 0, ZeroAlpha == 0, ColorMap == the empty string); any
    other field value, and the NetView pointer, is left as it was; a
    second call changes nothing. *)
Theorem Params_Defaults_fills_only_zero_fields (nv : Params) :
  MaxRecs (Params_Defaults nv)
    = (if MaxRecs nv =? 0 then 100 else MaxRecs nv) /\
  UnitSize (Params_Defaults nv)
    = (if f32_is_zero (UnitSize nv) then f32_0_9 else UnitSize nv) /\
  LayNmSize (Params_Defaults nv)
    = (if f32_is_zero (LayNmSize nv) then f32_0_05 else LayNmSize nv) /\
  ZeroAlpha (Params_Defaults nv)
    = (if f32_is_zero (ZeroAlpha nv) then f32_0_4 else ZeroAlpha nv) /\
  ColorMap (Params_Defaults nv)
    = (if String.eqb (ColorMap nv) "" then "ColdHot"%string
       else ColorMap nv) /\
  NetViewPtr (Params_Defaults nv) = NetViewPtr nv /\
  Params_Defaults (Params_Defaults nv) = Params_Defaults nv.
Proof.
  destruct defaults_not_zero as (H9 & H05 & H4).
  rewrite !Params_Defaults_unfold. defaults_step.
  repeat split.
  destruct nv as [m u l c z p]. defaults_step.
  f_equal.
  - destruct (m =? 0) eqn:Em; [reflexivity | by rewrite Em].
  - destruct (f32_is_zero u) eqn:Eu; [by rewrite H9 | by rewrite Eu].
  - destruct (f32_is_zero l) eqn:El; [by rewrite H05 | by rewrite El].
  - destruct (String.eqb c "") eqn:Ec; [reflexivity | by rewrite Ec].
  - destruct (f32_is_zero z) eqn:Ez; [by rewrite H4 | by rewrite Ez].
Qed.

End ViewDefaults.

(** ** netview: the list of variables *)

Section VarsList.
Import netview.
Local Open Scope nat_scope.

Lemma length_rs_entries (l : list string) :
  length (flat_map rs_entries l) = 2 * length l.
Proof.
  induction l as [|x l IHl]; [done|].
  cbn [flat_map rs_entries app length]. rewrite IHl. lia.
Qed.

Lemma store_prjnvar_loop (prjnvars : list string) (st k : nat)
    (nvars : list string) :
  length nvars = st + 2 * length prjnvars ->
  k <= length prjnvars ->
  foldl (store_prjnvar prjnvars st) nvars (seq 0 k)
  = take st nvars ++ flat_map rs_entries (take k prjnvars)
      ++ drop (st + 2 * k) nvars.
Proof.
  intros Hlen. induction k as [|k IH]; intros Hk.
  - rewrite Nat.mul_0_r, Nat.add_0_r, take_0. cbn [seq foldl flat_map app].
    by rewrite take_drop.
  - rewrite seq_S, foldl_app, Nat.add_0_l. cbn [foldl]. rewrite IH by lia.
    destruct (lookup_lt_is_Some_2 prjnvars k) as [v Hv]; [lia|].
    unfold store_prjnvar. rewrite Hv. cbn [default from_option id].
    rewrite (take_S_r _ _ _ Hv), flat_map_app.
    cbn [flat_map rs_entries app].
    assert (HA : length (take st nvars) = st)
      by (rewrite length_take; lia).
    assert (HB : length (flat_map rs_entries (take k prjnvars)) = 2 * k)
      by (rewrite length_rs_entries, length_take; lia).
    destruct (drop (st + 2 * k) nvars) as [|c0 [|c1 rest]] eqn:HC.
    { apply (f_equal length) in HC. rewrite length_drop in HC.
      cbn [length] in HC. lia. }
    { apply (f_equal length) in HC. rewrite length_drop in HC.
      cbn [length] in HC. lia. }
    assert (Hrest : drop (st + 2 * S k) nvars = rest).
    { replace (st + 2 * S k) with (st + 2 * k + 2) by lia.
      by rewrite <- drop_drop, HC. }
    rewrite Hrest.
    rewrite !insert_app_r_alt by lia.
    rewrite HA, HB.
    replace (st + 2 * k + 1 - st - 2 * k) with 1 by lia.
    replace (st + 2 * k - st - 2 * k) with 0 by lia.
    cbn [insert list_insert]. rewrite <- !app_assoc. done.
Qed.

Lemma copy_into_blank (unvars : list string) (tlen : nat) :
  length unvars <= tlen ->
  copy (replicate tlen ""%string) unvars
  = unvars ++ replicate (tlen - length unvars) ""%string.
Proof.
  intros Hle. unfold copy. rewrite length_replicate.
  rewrite take_ge by lia. by rewrite drop_replicate.
Qed.

Lemma NetVarsList_unfold (lay0 : Layer) (rest : list Layer) :
  let net := Some (lay0 :: rest) in
  let ulen := if Nat.odd (length (unit_vars net))
              then S (length (unit_vars net))
              else length (unit_vars net) in
  NetVarsList net true
  = foldl (store_prjnvar (syn_vars net) ulen)
          (copy (replicate (ulen + 2 * length (syn_vars net)) ""%string)
                (unit_vars net))
          (seq 0 (length (syn_vars net))).
Proof.
  intros net ulen. subst ulen net.
  unfold NetVarsList, unit_vars, syn_vars.
  cbn [NetFirstLayPrjn NLayers length Nat.eqb fst snd andb].
  rewrite <- Nat.bit0_mod.
  change (Nat.testbit (length (UnitVarNames lay0)) 0)
    with (Nat.odd (length (UnitVarNames lay0))).
  destruct (Nat.odd (length (UnitVarNames lay0))); reflexivity.
Qed.

(** C10.  For a non-nil network with at least one layer,
    [NetVarsList net true] is the unit variable names of the first layer,
    one empty slot if their number is odd, and then, per synapse
    variable, its "r." entry immediately followed by its "s." entry; the
    total length is even. *)
Theorem NetVarsList_even_layout (lays : list Layer) :
  lays <> [] ->
  NetVarsList (Some lays) true
  = vars_layout (unit_vars (Some lays)) (syn_vars (Some lays)) /\
  Nat.Even (length (NetVarsList (Some lays) true)).
Proof.
  intros Hne. destruct lays as [|lay0 rest]; [done|].
  assert (Heq : NetVarsList (Some (lay0 :: rest)) true
                = vars_layout (unit_vars (Some (lay0 :: rest)))
                              (syn_vars (Some (lay0 :: rest)))).
  { rewrite NetVarsList_unfold. unfold vars_layout.
    set (un := unit_vars _). set (pv := syn_vars _).
    set (ulen := if Nat.odd (length un) then S (length un)
                 else length un).
    assert (Hpad : ulen - length un
                   = if Nat.odd (length un) then 1 else 0).
    { subst ulen. destruct (Nat.odd (length un)); lia. }
    assert (Hle : length un <= ulen).
    { subst ulen. destruct (Nat.odd (length un)); lia. }
    rewrite store_prjnvar_loop.
    - rewrite copy_into_blank by lia.
      rewrite take_app_ge by lia. rewrite take_replicate.
      rewrite drop_ge, app_nil_r, firstn_all.
      + replace ((ulen - length un) `min` (ulen + 2 * length pv
                                            - length un))
          with (ulen - length un) by lia.
        rewrite Hpad. rewrite <- app_assoc.
        by destruct (Nat.odd (length un)).
      + rewrite length_app, length_replicate. lia.
    - rewrite copy_into_blank by lia.
      rewrite length_app, length_replicate. lia.
    - lia. }
  split; [exact Heq|].
  rewrite Heq. unfold vars_layout.
  rewrite !length_app, length_rs_entries.
  destruct (Nat.odd (length (unit_vars _))) eqn:Hodd; cbn [length].
  - apply Nat.odd_spec in Hodd. destruct Hodd as [m Hm].
    exists (S m + length (syn_vars (Some (lay0 :: rest)))). lia.
  - apply Bool.negb_true_iff in Hodd. rewrite Nat.negb_odd in Hodd.
    apply Nat.even_spec in Hodd. destruct Hodd as [m Hm].
    exists (m + length (syn_vars (Some (lay0 :: rest)))). lia.
Qed.

End VarsList.

(** One layer with three unit variables and a projection with two synapse
    variables. *)
Lemma NetVarsList_even_layout_witness :
  let prjn := netview.mkPrjn ["Wt"; "DWt"]%string in
  let lay := netview.mkLayer ["Act"; "Ge"; "Gi"]%string [prjn] [] in
  netview.NetVarsList (Some [lay]) true
  = ["Act"; "Ge"; "Gi"; ""; "r.Wt"; "s.Wt"; "r.DWt"; "s.DWt"]%string /\
  Nat.Even (length (netview.NetVarsList (Some [lay]) true)).
Proof.
  intros prjn lay.
  destruct (NetVarsList_even_layout [lay]) as [H1 H2]; [discriminate|].
  split; [rewrite H1; reflexivity | exact H2].
Defined.

(** ** netview: how the navigation steps move and compose *)

Section NavigationSteps.
Import netview.

Variable nv : NetView.
Hypothesis Len_int : GoInt.in_range (RingLen nv).

Local Ltac step_case :=
  match goal with
  | |- context [if ?b then _ else _] =>
      lazymatch b with
      | context [if _ then _ else _] => fail
      | _ => idtac
      end;
      let E := fresh "E" in
      destruct b eqn:E; cbn [RecNo Data Ring Len fst snd] in *;
      try rewrite Z.geb_leb in E;
      first [ apply Z.eqb_eq in E | apply Z.eqb_neq in E
            | apply Z.ltb_lt in E | apply Z.ltb_ge in E
            | apply Z.leb_le in E | apply Z.leb_gt in E ]
  end.

Local Ltac unwrap_all :=
  unfold GoInt.add, GoInt.sub;
  repeat (rewrite wrap_in_range
            by (unfold GoInt.in_range, GoInt.min_int, GoInt.max_int in *;
                lia)).

Local Ltac steps :=
  unfold RecNo_ok, RingLen, set_RecNo in *;
  destruct nv as [r [[n]]]; cbn [RecNo Data Ring Len fst snd] in *;
  unfold GoInt.in_range, GoInt.min_int, GoInt.max_int in *;
  unwrap_all; repeat (step_case; unwrap_all);
  cbn [RecNo Data Ring Len fst snd] in *;
  repeat split; try intros; try lia; try congruence;
  try (repeat f_equal; lia).

(** X1.  From a record of the ring, each step moves by a fixed amount and stops
    at the ends: back by 1 or by 11, forward by 1 or by 10. *)
Theorem rec_steps_are_clamped :
  0 <= RecNo nv <= RingLen nv - 1 ->
  RingLen nv <= GoInt.max_int - 8 ->
  RecNo (RecBkwd nv).1 = Z.max (RecNo nv - 1) 0 /\
  RecNo (RecFastBkwd nv).1 = Z.max (RecNo nv - 11) 0 /\
  RecNo (RecFwd nv).1 = Z.min (RecNo nv + 1) (RingLen nv - 1) /\
  RecNo (RecFastFwd nv).1 = Z.min (RecNo nv + 10) (RingLen nv - 1).
Proof.
  intros Hrec Hfit.
  unfold RecBkwd, RecFastBkwd, RecFwd, RecFastFwd. steps.
Qed.

(** X2.  Only RecTrackLatest enters tracking mode: the backward steps leave it
    for the last record (or the record 11 before the end), and never
    return -1; the forward steps keep -1 and return -1 for nothing else. *)
Theorem rec_steps_and_tracking :
  1 <= RingLen nv ->
  RingLen nv <= GoInt.max_int - 8 ->
  RecNo_ok nv ->
  (RecNo nv = -1 ->
   RecBkwd nv = (set_RecNo nv (RingLen nv - 1), true) /\
   RecFastBkwd nv = (set_RecNo nv (Z.max (RingLen nv - 11) 0), true) /\
   RecFwd nv = (nv, false) /\ RecFastFwd nv = (nv, false)) /\
  RecNo (RecBkwd nv).1 <> -1 /\
  RecNo (RecFastBkwd nv).1 <> -1 /\
  (RecNo (RecFwd nv).1 = -1 <-> RecNo nv = -1) /\
  (RecNo (RecFastFwd nv).1 = -1 <-> RecNo nv = -1).
Proof.
  intros Hlen Hfit Hok.
  unfold RecBkwd, RecFastBkwd, RecFwd, RecFastFwd. steps.
Qed.

(** X3.  A step back and a step forward undo each other inside the ring. *)
Theorem RecBkwd_RecFwd_inverse :
  (1 <= RecNo nv <= RingLen nv - 1 ->
   RecFwd (RecBkwd nv).1 = (nv, true)) /\
  (0 <= RecNo nv < RingLen nv - 1 ->
   RecBkwd (RecFwd nv).1 = (nv, true)).
Proof.
  unfold RecBkwd, RecFwd. split; intros Hrec; steps.
Qed.

(** X4.  The fast steps do not undo each other: fast backward moves 11 records
    and fast forward 10, so the pair ends one record earlier. *)
Theorem RecFastBkwd_RecFastFwd_drift :
  11 <= RecNo nv <= RingLen nv - 1 ->
  RecFastBkwd nv = (set_RecNo nv (RecNo nv - 11), true) /\
  RecFastFwd (RecFastBkwd nv).1 = (set_RecNo nv (RecNo nv - 1), true).
Proof.
  intros Hrec. unfold RecFastBkwd, RecFastFwd. steps.
Qed.

(** X5.  On an empty ring, in tracking mode, the backward steps set RecNo to 0
    and report a change though the ring has no record 0; the other steps
    change nothing. *)
Theorem rec_steps_on_empty_ring :
  RingLen nv = 0 -> RecNo nv = -1 ->
  RecBkwd nv = (set_RecNo nv 0, true) /\
  RecFastBkwd nv = (set_RecNo nv 0, true) /\
  ~ RecNo_ok (RecBkwd nv).1 /\
  RecFwd nv = (nv, false) /\ RecFastFwd nv = (nv, false) /\
  RecTrackLatest nv = (nv, false).
Proof.
  intros Hlen Hrec.
  unfold RecBkwd, RecFastBkwd, RecFwd, RecFastFwd, RecTrackLatest. steps.
Qed.

End NavigationSteps.

(** X1, witness.  The four steps from record 5 of a ring of 12 records. *)
Lemma rec_steps_are_clamped_witness :
  let nv := netview.mkNetView 5 (netview.mkNetData (netview.mkFIx 12)) in
  netview.RecNo (netview.RecBkwd nv).1 = 4 /\
  netview.RecNo (netview.RecFastBkwd nv).1 = 0 /\
  netview.RecNo (netview.RecFwd nv).1 = 6 /\
  netview.RecNo (netview.RecFastFwd nv).1 = 11.
Proof.
  intros nv.
  apply (rec_steps_are_clamped nv).
  - vm_compute. split; discriminate.
  - vm_compute. split; discriminate.
  - vm_compute. discriminate.
Defined.

(** X2, witness.  The steps from tracking mode on a ring of 20 records. *)
Lemma rec_steps_and_tracking_witness :
  let nv := netview.mkNetView (-1) (netview.mkNetData (netview.mkFIx 20)) in
  netview.RecBkwd nv = (netview.set_RecNo nv 19, true) /\
  netview.RecFastBkwd nv = (netview.set_RecNo nv 9, true) /\
  netview.RecFwd nv = (nv, false) /\ netview.RecFastFwd nv = (nv, false).
Proof.
  intros nv.
  apply (rec_steps_and_tracking nv).
  - vm_compute. split; discriminate.
  - vm_compute. discriminate.
  - vm_compute. discriminate.
  - left. reflexivity.
  - reflexivity.
Defined.

(** X3, witness.  A step back and forth from record 1 of a ring of 3 records. *)
Lemma RecBkwd_RecFwd_inverse_witness :
  let nv := netview.mkNetView 1 (netview.mkNetData (netview.mkFIx 3)) in
  netview.RecFwd (netview.RecBkwd nv).1 = (nv, true) /\
  netview.RecBkwd (netview.RecFwd nv).1 = (nv, true).
Proof.
  intros nv.
  assert (Hint : GoInt.in_range (netview.RingLen nv))
    by (vm_compute; split; discriminate).
  split.
  - apply (proj1 (RecBkwd_RecFwd_inverse nv Hint)).
    vm_compute. split; discriminate.
  - apply (proj2 (RecBkwd_RecFwd_inverse nv Hint)).
    vm_compute. split; [discriminate|reflexivity].
Defined.

(** X4, witness.  Fast backward then fast forward from record 15 of a ring of
    20. *)
Lemma RecFastBkwd_RecFastFwd_drift_witness :
  let nv := netview.mkNetView 15 (netview.mkNetData (netview.mkFIx 20)) in
  netview.RecFastBkwd nv = (netview.set_RecNo nv 4, true) /\
  netview.RecFastFwd (netview.RecFastBkwd nv).1
  = (netview.set_RecNo nv 14, true).
Proof.
  intros nv.
  apply (RecFastBkwd_RecFastFwd_drift nv).
  - vm_compute. split; discriminate.
  - vm_compute. split; discriminate.
Defined.

(** X5, witness.  A view in tracking mode before anything was recorded. *)
Lemma rec_steps_on_empty_ring_witness :
  let nv := netview.mkNetView (-1) (netview.mkNetData (netview.mkFIx 0)) in
  netview.RecBkwd nv = (netview.set_RecNo nv 0, true) /\
  netview.RecFastBkwd nv = (netview.set_RecNo nv 0, true) /\
  ~ netview.RecNo_ok (netview.RecBkwd nv).1 /\
  netview.RecFwd nv = (nv, false) /\ netview.RecFastFwd nv = (nv, false) /\
  netview.RecTrackLatest nv = (nv, false).
Proof.
  intros nv.
  apply (rec_steps_on_empty_ring nv).
  - vm_compute. split; discriminate.
  - reflexivity.
  - reflexivity.
Defined.

(** ** netview: the first layer and projection, and the storage list *)

Section FirstLayPrjn.
Import netview.
Local Open Scope nat_scope.

Lemma first_prjn_None (lays : list Layer) :
  first_prjn lays = None <-> Forall no_prjns lays.
Proof.
  induction lays as [|ly lays IH]; cbn [first_prjn].
  - split; [constructor | done].
  - rewrite Forall_cons, <- IH. unfold no_prjns.
    destruct (RecvPrjns ly) as [|p ps]; [|by split; [|intros [[? _] _]]].
    destruct (SendPrjns ly) as [|q qs]; [|by split; [|intros [[_ ?] _]]].
    by split; [|intros [_ ?]].
Qed.

Lemma first_prjn_Some (lays : list Layer) (p : Prjn) :
  first_prjn lays = Some p ->
  exists pre ly post,
    lays = pre ++ ly :: post /\ Forall no_prjns pre /\
    (head (RecvPrjns ly) = Some p \/
     RecvPrjns ly = [] /\ head (SendPrjns ly) = Some p).
Proof.
  induction lays as [|ly lays IH]; cbn [first_prjn]; [done|].
  destruct (RecvPrjns ly) as [|r rs] eqn:Hr.
  - destruct (SendPrjns ly) as [|q qs] eqn:Hs.
    + intros Hp. destruct (IH Hp) as (pre & ly' & post & -> & Hpre & Hly').
      exists (ly :: pre), ly', post. split; [done|]. split; [|done].
      constructor; [by split | done].
    + intros [= <-]. exists [], ly, lays. split; [done|].
      split; [constructor|]. right. by rewrite Hr, Hs.
  - intros [= <-]. exists [], ly, lays. split; [done|].
    split; [constructor|]. left. by rewrite Hr.
Qed.

(** X6.  NetFirstLayPrjn returns no layer exactly when the network is nil or
    has no layer; otherwise the layer is layer 0, whichever layer the
    projection comes from.  The projection is that of the first layer
    that has one, its first receiving projection if it has any and else
    its first sending one; it is nil exactly when no layer has a
    projection. *)
Theorem NetFirstLayPrjn_result (net : Network) :
  ((NetFirstLayPrjn net).1 = None <-> HasLayers net = false) /\
  (forall lay0 rest, net = Some (lay0 :: rest) ->
     (NetFirstLayPrjn net).1 = Some lay0) /\
  (forall lays, net = Some lays ->
     ((NetFirstLayPrjn net).2 = None <-> Forall no_prjns lays)) /\
  (forall lays p, net = Some lays -> (NetFirstLayPrjn net).2 = Some p ->
     exists pre ly post,
       lays = pre ++ ly :: post /\ Forall no_prjns pre /\
       (head (RecvPrjns ly) = Some p \/
        RecvPrjns ly = [] /\ head (SendPrjns ly) = Some p)).
Proof.
  split; [|split; [|split]].
  - destruct net as [[|lay0 rest]|]; cbn; by split.
  - by intros lay0 rest ->.
  - intros lays ->. destruct lays as [|lay0 rest]; cbn [NetFirstLayPrjn snd].
    + split; [constructor | done].
    + apply first_prjn_None.
  - intros lays p ->. destruct lays as [|lay0 rest];
      cbn [NetFirstLayPrjn snd]; [done|]. apply first_prjn_Some.
Qed.

Lemma NetVarsList_storage_unfold (lay0 : Layer) (rest : list Layer) :
  let net := Some (lay0 :: rest) in
  NetVarsList net false
  = foldl (store_prjnvar (syn_vars net) (length (unit_vars net)))
          (copy (replicate (length (unit_vars net)
                            + 2 * length (syn_vars net)) ""%string)
                (unit_vars net))
          (seq 0 (length (syn_vars net))).
Proof. reflexivity. Qed.

Lemma NetVarsList_filled (un pv : list string) (ulen : nat) :
  length un <= ulen ->
  foldl (store_prjnvar pv ulen)
        (copy (replicate (ulen + 2 * length pv) ""%string) un)
        (seq 0 (length pv))
  = un ++ replicate (ulen - length un) ""%string ++ flat_map rs_entries pv.
Proof.
  intros Hle. rewrite store_prjnvar_loop.
  - rewrite copy_into_blank by lia.
    rewrite take_app_ge by lia. rewrite take_replicate.
    rewrite drop_ge, app_nil_r, firstn_all.
    + replace ((ulen - length un) `min` (ulen + 2 * length pv - length un))
        with (ulen - length un) by lia.
      by rewrite <- app_assoc.
    + rewrite length_app, length_replicate. lia.
  - rewrite copy_into_blank by lia.
    rewrite length_app, length_replicate. lia.
  - lia.
Qed.

(** X7.  Without the padding (layEven false) the list is the unit variables
    followed by the "r." and "s." entries; a nil network or one without
    layers gives the empty list with either flag. *)
Theorem NetVarsList_storage_layout (net : Network) (layEven : bool) :
  (HasLayers net = false -> NetVarsList net layEven = []) /\
  (HasLayers net = true ->
   NetVarsList net false
   = unit_vars net ++ flat_map rs_entries (syn_vars net)).
Proof.
  split.
  - destruct net as [[|lay0 rest]|]; cbn; done.
  - destruct net as [[|lay0 rest]|]; cbn [HasLayers NLayers length Nat.eqb];
      [done| |done].
    intros _. rewrite NetVarsList_storage_unfold.
    rewrite NetVarsList_filled by lia.
    by rewrite Nat.sub_diag.
Qed.

(** X8.  The display list is the storage list with one empty entry put after
    the unit variables when their number is odd. *)
Theorem NetVarsList_display_from_storage (net : Network) :
  let n := length (unit_vars net) in
  NetVarsList net true
  = take n (NetVarsList net false)
    ++ (if Nat.odd n then [""%string] else [])
    ++ drop n (NetVarsList net false).
Proof.
  destruct net as [[|lay0 rest]|]; [done| |done].
  intros n. subst n.
  rewrite NetVarsList_unfold, NetVarsList_storage_unfold.
  set (un := unit_vars _). set (pv := syn_vars _).
  rewrite (NetVarsList_filled un pv (length un)) by lia.
  rewrite Nat.sub_diag. cbn [replicate app].
  rewrite take_app_length, drop_app_length.
  destruct (Nat.odd (length un)).
  - rewrite NetVarsList_filled by lia.
    by replace (S (length un) - length un) with 1 by lia.
  - rewrite NetVarsList_filled by lia. by rewrite Nat.sub_diag.
Qed.

End FirstLayPrjn.

(** ** netview: the parameters of the variables *)

Section VarParamsProps.
Import netview.
Local Open Scope nat_scope.

Lemma unit_range_not_zero :
  f32_is_zero f32_1 = false /\ f32_is_zero f32_minus_1 = false.
Proof. split; reflexivity. Qed.

(** X9.  VarParams.Defaults acts only on a range whose ends both compare equal
    to zero: it then turns ZeroCtr on and fixes the range to [-1, 1].
    Any other range is left as it is, the name and MinMax always are, and
    a second call changes nothing. *)
Theorem VarParams_Defaults_result (vp : VarParams) :
  let zero_range := f32_is_zero (Max (Range_F32 (Range vp)))
                    && f32_is_zero (Min (Range_F32 (Range vp))) in
  VarParams_Defaults vp
  = (if zero_range
     then mkVarParams (Var vp) true
            (mkRange32 (mkF32 f32_minus_1 f32_1) true true) (MinMax vp)
     else vp) /\
  VarParams_Defaults (VarParams_Defaults vp) = VarParams_Defaults vp.
Proof.
  destruct unit_range_not_zero as [H1 Hm1].
  destruct vp as [nm zc [[mn mx] fmin fmax] mm].
  unfold VarParams_Defaults, Range32_SetMin, Range32_SetMax.
  cbn [Var ZeroCtr Range MinMax Range_F32 Min Max FixMin FixMax].
  destruct (f32_is_zero mx && f32_is_zero mn) eqn:Hz.
  - cbn [Var ZeroCtr Range MinMax Range_F32 Min Max FixMin FixMax].
    by rewrite H1.
  - cbn [Var ZeroCtr Range MinMax Range_F32 Min Max FixMin FixMax].
    by rewrite Hz.
Qed.

Variable UnitVarProps : Layer -> gmap string string.
Variable SynVarProps : Prjn -> gmap string string.
Variable SetProps : VarParams -> string -> VarParams.

Lemma foldl_insert_keys {V} (f : string -> V) (l : list string)
    (m : gmap string V) (k : string) :
  foldl (fun m nm => <[nm := f nm]> m) m l !! k
  = if decide (k ∈ l) then Some (f k) else m !! k.
Proof.
  revert m. induction l as [|x l IH]; intros m; cbn [foldl].
  - destruct (decide (k ∈ [])) as [Hin|]; [|done].
    by apply elem_of_nil in Hin.
  - rewrite IH. destruct (decide (k ∈ l)) as [Hin|Hnin].
    + by rewrite decide_True by (by right).
    + destruct (decide (k = x)) as [->|Hne].
      * rewrite decide_True by (by left). by rewrite lookup_insert_eq.
      * rewrite decide_False by (by intros [?|?]%elem_of_cons).
        by rewrite lookup_insert_ne.
Qed.

(** The parameters a new name starts from: Defaults always applies to
    the zero range of a new VarParams. *)
Lemma new_VarParams_Defaults (nm : string) :
  VarParams_Defaults (new_VarParams nm)
  = mkVarParams nm true (mkRange32 (mkF32 f32_minus_1 f32_1) true true)
                (mkF32 zero_f32 zero_f32).
Proof. reflexivity. Qed.

(** X10.  VarsListUpdate compares lengths only: when the length of the new list
    equals that of Vars, nothing changes, whatever the names are.
    Otherwise, on a network with a first layer, Vars becomes the display
    list and VarParams holds parameters for exactly the names of that
    list, the empty padding name included; each starts zero-centred with
    the fixed range [-1, 1], and SetProps is applied to that when the name
    has a property tag. *)
Theorem VarsListUpdate_result (nv : VarsView) :
  (length (NetVarsList (Net nv) true) = length (Vars nv) ->
   VarsListUpdate UnitVarProps SynVarProps SetProps nv = Some nv) /\
  (length (NetVarsList (Net nv) true) <> length (Vars nv) ->
   forall lay, (NetFirstLayPrjn (Net nv)).1 = Some lay ->
   exists nv',
     VarsListUpdate UnitVarProps SynVarProps SetProps nv = Some nv' /\
     Net nv' = Net nv /\
     Vars nv' = NetVarsList (Net nv) true /\
     (forall nm, is_Some (VarParamsMap nv' !! nm) <-> nm ∈ Vars nv') /\
     (forall nm, nm ∈ Vars nv' ->
        let prjnprops := match (NetFirstLayPrjn (Net nv)).2 with
                         | Some p => SynVarProps p
                         | None => ∅
                         end in
        let vtag := var_tag (UnitVarProps lay) prjnprops nm in
        let vp := mkVarParams nm true
                    (mkRange32 (mkF32 f32_minus_1 f32_1) true true)
                    (mkF32 zero_f32 zero_f32) in
        VarParamsMap nv' !! nm
        = Some (if String.eqb vtag "" then vp else SetProps vp vtag))).
Proof.
  unfold VarsListUpdate. split.
  - intros ->. by rewrite Nat.eqb_refl.
  - intros Hlen lay Hlay. apply Nat.eqb_neq in Hlen. rewrite Hlen.
    cbn [Net Vars VarParamsMap].
    destruct (NetFirstLayPrjn (Net nv)) as [lay' prjn].
    cbn [fst snd] in *. subst lay'.
    eexists. split; [reflexivity|].
    cbn [Net Vars VarParamsMap].
    split; [done|]. split; [done|]. split.
    + intros nm. rewrite foldl_insert_keys.
      destruct (decide (nm ∈ _)) as [Hin|Hnin].
      * split; [done | by eexists].
      * rewrite lookup_empty. split; [by intros [? ?] | done].
    + intros nm Hin. cbv zeta.
      rewrite foldl_insert_keys. rewrite decide_True by done.
      unfold var_params. by rewrite new_VarParams_Defaults.
Qed.

(** X11.  With a nil network or one without layers, VarsListUpdate does nothing
    when Vars is empty and panics when it is not. *)
Theorem VarsListUpdate_without_layers (nv : VarsView) :
  HasLayers (Net nv) = false ->
  VarsListUpdate UnitVarProps SynVarProps SetProps nv
  = (if decide (Vars nv = []) then Some nv else None).
Proof.
  intros Hhas. unfold VarsListUpdate.
  assert (Hlist : NetVarsList (Net nv) true = [])
    by (by destruct (Net nv) as [[|lay0 rest]|]).
  assert (Hfirst : (NetFirstLayPrjn (Net nv)).1 = None)
    by (by destruct (Net nv) as [[|lay0 rest]|]).
  rewrite Hlist. cbn [length Net].
  destruct (Vars nv) as [|v vs]; cbn [length Nat.eqb].
  - by rewrite decide_True.
  - rewrite decide_False by done.
    destruct (NetFirstLayPrjn (Net nv)) as [[lay|] prjn]; [done|done].
Qed.

End VarParamsProps.

(** X10, witness.  A view without variables on a network of one layer with a
    tagged unit
    variable. *)
Lemma VarsListUpdate_result_witness :
  let prjn := netview.mkPrjn ["Wt"]%string in
  let lay := netview.mkLayer ["Act"; "Ge"]%string [prjn] [] in
  let unit_props := fun _ : netview.Layer =>
                      ({["Act" := "range:2"]} : gmap string string) in
  let syn_props := fun _ : netview.Prjn => (∅ : gmap string string) in
  let set_props := fun (vp : netview.VarParams) (tag : string) =>
                     netview.mkVarParams tag (netview.ZeroCtr vp)
                       (netview.Range vp) (netview.MinMax vp) in
  exists nv',
    netview.VarsListUpdate unit_props syn_props set_props
      (netview.mkVarsView (Some [lay]) [] ∅) = Some nv' /\
    netview.Vars nv' = ["Act"; "Ge"; "r.Wt"; "s.Wt"]%string /\
    (forall nm, is_Some (netview.VarParamsMap nv' !! nm)
                <-> nm ∈ netview.Vars nv').
Proof.
  intros prjn lay unit_props syn_props set_props.
  destruct (proj2 (VarsListUpdate_result unit_props syn_props set_props
                     (netview.mkVarsView (Some [lay]) [] ∅)))
    with (lay := lay) as (nv' & Hrun & _ & Hvars & Hdom & _).
  - vm_compute. discriminate.
  - reflexivity.
  - exists nv'. split; [exact Hrun|]. split; [exact Hvars | exact Hdom].
Defined.

(** X11, witness.  A view that lists a variable, after its network lost its
    layers. *)
Lemma VarsListUpdate_without_layers_witness :
  let unit_props := fun _ : netview.Layer => (∅ : gmap string string) in
  let syn_props := fun _ : netview.Prjn => (∅ : gmap string string) in
  let set_props := fun (vp : netview.VarParams) (_ : string) => vp in
  netview.VarsListUpdate unit_props syn_props set_props
    (netview.mkVarsView (Some []) ["Act"%string] ∅) = None.
Proof.
  intros unit_props syn_props set_props.
  apply (VarsListUpdate_without_layers unit_props syn_props set_props
           (netview.mkVarsView (Some []) ["Act"%string] ∅)).
  reflexivity.
Defined.

(** ** params: strings and sorted keys *)

Import GoStr params.

Section Strings.

Lemma append_assoc (a b c : string) : (a +:+ b) +:+ c = a +:+ b +:+ c.
Proof.
  induction a as [|x a IH]; [reflexivity|].
  change (String x ((a +:+ b) +:+ c) = String x (a +:+ b +:+ c)).
  by rewrite IH.
Qed.

Lemma append_empty_r (a : string) : a +:+ "" = a.
Proof.
  induction a as [|x a IH]; [reflexivity|].
  change (String x (a +:+ "") = String x a). by rewrite IH.
Qed.

Lemma foldl_append {A} (f : string -> A -> string) (g : A -> string)
    (l : list A) (buf : string) :
  (forall w x, f w x = w +:+ g x) ->
  foldl f buf l = buf +:+ concat (map g l).
Proof.
  intros Hf. revert buf. induction l as [|x l IH]; intros buf.
  - cbn [foldl map concat foldr]. by rewrite append_empty_r.
  - cbn [foldl map concat foldr]. rewrite IH, Hf, append_assoc. done.
Qed.

Lemma foldl_pointwise {A B} (f g : A -> B -> A) (l : list B) (a : A) :
  (forall a x, f a x = g a x) -> foldl f a l = foldl g a l.
Proof.
  intros Hfg. revert a. induction l as [|x l IH]; intros a; [done|].
  cbn [foldl]. by rewrite Hfg, IH.
Qed.

End Strings.

Section SortedKeys.

Context {V : Type}.
Implicit Types (m : gmap string V) (ro : RangeOrder).

Lemma range_keys_perm ro m : range_keys ro m ≡ₚ (map_to_list m).*1.
Proof. unfold range_keys. apply arrange_perm. Qed.

Lemma SortStrings_sorted (l : list string) : Sorted String.le (SortStrings l).
Proof. apply (Sorted_merge_sort String.le). Qed.

Lemma SortStrings_perm (l : list string) : SortStrings l ≡ₚ l.
Proof. apply (merge_sort_Permutation String.le). Qed.

Lemma SortStrings_range_keys ro1 ro2 m :
  SortStrings (range_keys ro1 m) = SortStrings (range_keys ro2 m).
Proof.
  apply (Sorted_unique String.le); try apply SortStrings_sorted.
  by rewrite !SortStrings_perm, !range_keys_perm.
Qed.

Lemma elem_of_sorted_keys ro m (k : string) :
  k ∈ SortStrings (range_keys ro m) <-> is_Some (m !! k).
Proof.
  rewrite SortStrings_perm, range_keys_perm, list_elem_of_fmap.
  split.
  - intros [[k' v] [-> Hin]]. apply elem_of_map_to_list in Hin. by exists v.
  - intros [v Hv]. exists (k, v). split; [done|]. by apply elem_of_map_to_list.
Qed.

Lemma NoDup_sorted_keys ro m : NoDup (SortStrings (range_keys ro m)).
Proof.
  rewrite SortStrings_perm, range_keys_perm. apply NoDup_fst_map_to_list.
Qed.

End SortedKeys.

(** ** params: the order of [range] does not show *)

Section RangeOrderIrrelevant.

Variable Quote : string -> string.
Variables ro1 ro2 : RangeOrder.

Section Writers.
Context {W : Type} `{Writer W}.

Lemma Params_WriteGoCode_order (pr : Params) (w : W) (depth : nat) :
  Params_WriteGoCode Quote ro1 pr w depth
  = Params_WriteGoCode Quote ro2 pr w depth.
Proof.
  unfold Params_WriteGoCode.
  by rewrite (SortStrings_range_keys ro1 ro2).
Qed.

Lemma Sel_WriteGoCode_order (pr : Sel) (w : W) (depth : nat) :
  Sel_WriteGoCode Quote ro1 pr w depth = Sel_WriteGoCode Quote ro2 pr w depth.
Proof. unfold Sel_WriteGoCode. apply Params_WriteGoCode_order. Qed.

Lemma Sheet_WriteGoCode_order (pr : Sheet) (w : W) (depth : nat) :
  Sheet_WriteGoCode Quote ro1 pr w depth
  = Sheet_WriteGoCode Quote ro2 pr w depth.
Proof.
  unfold Sheet_WriteGoCode. do 2 f_equal.
  apply foldl_pointwise. intros a x. by rewrite Sel_WriteGoCode_order.
Qed.

Lemma Sheets_WriteGoCode_order (pr : Sheets) (w : W) (depth : nat) :
  Sheets_WriteGoCode Quote ro1 pr w depth
  = Sheets_WriteGoCode Quote ro2 pr w depth.
Proof.
  unfold Sheets_WriteGoCode.
  rewrite (SortStrings_range_keys ro1 ro2). do 2 f_equal.
  apply foldl_pointwise. intros a x. apply Sheet_WriteGoCode_order.
Qed.

Lemma Set_WriteGoCode_order (pr : Set_) (w : W) (depth : nat) :
  Set_WriteGoCode Quote ro1 pr w depth = Set_WriteGoCode Quote ro2 pr w depth.
Proof. unfold Set_WriteGoCode. apply Sheets_WriteGoCode_order. Qed.

Lemma Sets_WriteGoCode_order (pr : Sets) (w : W) (depth : nat) :
  Sets_WriteGoCode Quote ro1 pr w depth
  = Sets_WriteGoCode Quote ro2 pr w depth.
Proof.
  unfold Sets_WriteGoCode. do 2 f_equal.
  apply foldl_pointwise. intros a x. by rewrite Set_WriteGoCode_order.
Qed.

End Writers.

Lemma map_toJSON_order {V} (elem1 elem2 : V -> JSON) (zero : V)
    (m : gmap string V) :
  (forall v, elem1 v = elem2 v) ->
  map_toJSON ro1 elem1 zero m = map_toJSON ro2 elem2 zero m.
Proof.
  intros Helem. unfold map_toJSON, map_members.
  rewrite (SortStrings_range_keys ro1 ro2). f_equal.
  apply map_ext. intros k. by rewrite Helem.
Qed.

Lemma Sel_toJSON_order (s : Sel) : Sel_toJSON ro1 s = Sel_toJSON ro2 s.
Proof.
  unfold Sel_toJSON, Params_toJSON.
  by rewrite (map_toJSON_order string_toJSON string_toJSON).
Qed.

Lemma Sheet_toJSON_order (sh : Sheet) :
  Sheet_toJSON ro1 sh = Sheet_toJSON ro2 sh.
Proof.
  unfold Sheet_toJSON. f_equal. apply map_ext, Sel_toJSON_order.
Qed.

Lemma Set_toJSON_order (s : Set_) : Set_toJSON ro1 s = Set_toJSON ro2 s.
Proof.
  unfold Set_toJSON, Sheets_toJSON.
  by rewrite (map_toJSON_order _ _ _ _ Sheet_toJSON_order).
Qed.

(** C5.  Serializing an unchanged Sets value twice gives identical output,
    whatever order the two runs' [range] loops visit the maps in: the Go
    code text of StringGoCode is the same, and so are the bytes that
    SaveJSON marshals. *)
Theorem Sets_serialization_deterministic (pr : Sets) :
  Sets_StringGoCode Quote ro1 pr = Sets_StringGoCode Quote ro2 pr /\
  json_MarshalIndent (Sets_toJSON ro1) pr
  = json_MarshalIndent (Sets_toJSON ro2) pr.
Proof.
  split.
  - unfold Sets_StringGoCode. apply Sets_WriteGoCode_order.
  - unfold json_MarshalIndent, Sets_toJSON. do 3 f_equal.
    apply map_ext, Set_toJSON_order.
Qed.

End RangeOrderIrrelevant.

(** ** params: the text of the Go code *)

Section GoCodeText.

Variable Quote : string -> string.
Variable ro : RangeOrder.

Local Ltac buffer_writes :=
  unfold Write_, Write, Buffer_Writer; cbn [fst].

Lemma Params_WriteGoCode_text (pr : Params) (buf : Buffer) (depth : nat) :
  Params_WriteGoCode Quote ro pr buf depth
  = buf +:+ ("params.Params{" +:+ nl)
    +:+ concat (map (Params_entry Quote pr (S depth))
                    (SortStrings (range_keys ro pr)))
    +:+ TabBytes depth +:+ "}".
Proof.
  unfold Params_WriteGoCode. cbn [pred].
  rewrite (foldl_append _ (Params_entry Quote pr (S depth))).
  - buffer_writes. rewrite !append_assoc. done.
  - intros w x. buffer_writes. unfold Params_entry.
    by rewrite !append_assoc.
Qed.

Lemma Params_WriteGoCode_prefix (pr : Params) (buf : Buffer) (depth : nat) :
  Params_WriteGoCode Quote ro pr buf depth
  = buf +:+ Params_WriteGoCode Quote ro pr ("" : Buffer) depth.
Proof. by rewrite !Params_WriteGoCode_text. Qed.

Lemma Sel_WriteGoCode_prefix (pr : Sel) (buf : Buffer) (depth : nat) :
  Sel_WriteGoCode Quote ro pr buf depth
  = buf +:+ Sel_WriteGoCode Quote ro pr ("" : Buffer) depth.
Proof.
  unfold Sel_WriteGoCode.
  rewrite !Params_WriteGoCode_text. buffer_writes.
  rewrite !append_assoc. done.
Qed.

Lemma Sheet_WriteGoCode_prefix (pr : Sheet) (buf : Buffer) (depth : nat) :
  Sheet_WriteGoCode Quote ro pr buf depth
  = buf +:+ Sheet_WriteGoCode Quote ro pr ("" : Buffer) depth.
Proof.
  unfold Sheet_WriteGoCode. cbn [pred].
  set (entry := fun pv : Sel =>
         TabBytes (S depth) +:+ "{"
         +:+ Sel_WriteGoCode Quote ro pv ("" : Buffer) (S depth)
         +:+ "}," +:+ nl).
  assert (Hstep : forall (w : Buffer) pv,
             Write_ (Sel_WriteGoCode Quote ro pv
                       (Write_ (Write_ w (TabBytes (S depth))) "{")
                       (S depth)) ("}," +:+ nl)
             = w +:+ entry pv).
  { intros w pv.
    rewrite (Sel_WriteGoCode_prefix pv (Write_ _ _)). buffer_writes.
    unfold entry. by rewrite !append_assoc. }
  rewrite !(foldl_append _ entry) by exact Hstep.
  buffer_writes. rewrite !append_assoc. done.
Qed.

Lemma Sheets_WriteGoCode_text (pr : Sheets) (buf : Buffer) (depth : nat) :
  Sheets_WriteGoCode Quote ro pr buf depth
  = buf +:+ ("params.Sheets{" +:+ nl)
    +:+ concat (map (Sheets_entry Quote ro pr (S depth))
                    (SortStrings (range_keys ro pr)))
    +:+ TabBytes depth +:+ "}".
Proof.
  unfold Sheets_WriteGoCode. cbn [pred].
  rewrite (foldl_append _ (Sheets_entry Quote ro pr (S depth))).
  - buffer_writes. rewrite !append_assoc. done.
  - intros w x.
    rewrite (Sheet_WriteGoCode_prefix _ (Write_ _ _)). buffer_writes.
    unfold Sheets_entry. by rewrite !append_assoc.
Qed.

(** C4.  Params.WriteGoCode emits the opening line, then one entry per
    path in ascending order of the path strings, each path once, then the
    closing brace; Sheets.WriteGoCode does the same with its sheet names.
    This holds for every order in which [range] visits the map. *)
Theorem WriteGoCode_emits_keys_in_order (buf : Buffer) (depth : nat) :
  (forall pr : Params,
     exists paths : list string,
       Sorted String.le paths /\ NoDup paths /\
       (forall pt, pt ∈ paths <-> is_Some (pr !! pt)) /\
       Params_WriteGoCode Quote ro pr buf depth
       = buf +:+ ("params.Params{" +:+ nl)
         +:+ concat (map (Params_entry Quote pr (S depth)) paths)
         +:+ TabBytes depth +:+ "}") /\
  (forall pr : Sheets,
     exists nms : list string,
       Sorted String.le nms /\ NoDup nms /\
       (forall nm, nm ∈ nms <-> is_Some (pr !! nm)) /\
       Sheets_WriteGoCode Quote ro pr buf depth
       = buf +:+ ("params.Sheets{" +:+ nl)
         +:+ concat (map (Sheets_entry Quote ro pr (S depth)) nms)
         +:+ TabBytes depth +:+ "}").
Proof.
  split; intros pr; exists (SortStrings (range_keys ro pr));
    (split; [apply SortStrings_sorted|]);
    (split; [apply NoDup_sorted_keys|]);
    (split; [intros k; apply elem_of_sorted_keys|]).
  - apply Params_WriteGoCode_text.
  - apply Sheets_WriteGoCode_text.
Qed.

End GoCodeText.

(** Two paths inserted and visited in descending order come out in
    ascending order. *)
Example Params_StringGoCode_sorted :
  Params_StringGoCode (fun s => s) range_reversed
    (<["Act.Gain" := "1"]> (<["Act.Bias" := "2"]> ∅))
  = "params.Params{" +:+ nl
    +:+ tab +:+ "Act.Bias: 2," +:+ nl
    +:+ tab +:+ "Act.Gain: 1," +:+ nl
    +:+ "}".
Proof. vm_compute. reflexivity. Qed.

(** ** params: errors of the save methods *)

Section SaveErrors.

Variable Quote : string -> string.
Variable ro : RangeOrder.

Lemma ioutil_WriteFile_reports (filename : string) (data : FileData)
    (w : World) :
  (ioutil_WriteFile filename data w).1.(failed_ops) <> w.(failed_ops) ->
  (ioutil_WriteFile filename data w).2 <> None.
Proof.
  unfold ioutil_WriteFile, os_Create.
  destruct (decide (filename ∈ locked w)); [done|].
  cbn [writes_left failed_ops].
  destruct (writes_left w); cbn; [done|]. intros Hne. by destruct Hne.
Qed.

Lemma SaveJSON_reports_every_failure :
  reports_every_failure (SaveJSON ro).
Proof.
  intros v filename w.
  destruct v; apply ioutil_WriteFile_reports.
Qed.

(** Writes to a file keep the handle and the locked paths. *)
Lemma OSFile_Write_handle (f : OSFile) (b : string) :
  (Write_ f b).(handle) = f.(handle).
Proof.
  unfold Write_, Write, OSFile_Writer.
  by destruct (File_Write (handle f) b (world f)).
Qed.

Lemma os_Create_result (filename : string) (w : World) :
  (os_Create filename w).2 <> None <-> filename ∈ locked w.
Proof.
  unfold os_Create. destruct (decide (filename ∈ locked w)); cbn; split;
    intros; done.
Qed.

Lemma SaveGoCode_result (v : Tree) (filename : string) (w : World) :
  (SaveGoCode Quote ro v filename w).2 <> None <-> filename ∈ locked w.
Proof.
  rewrite <- os_Create_result.
  destruct v; cbn [SaveGoCode];
    unfold Params_SaveGoCode, Sel_SaveGoCode, Sheet_SaveGoCode,
      Sheets_SaveGoCode, Set_SaveGoCode, Sets_SaveGoCode;
    destruct (os_Create filename w) as [[w' h] [e|]]; cbn [snd];
    repeat match goal with
           | |- context [File_Close ?h ?w] => destruct (File_Close h w)
           end; cbn [snd]; done.
Qed.

(** C2 (amended).  SaveJSON, on any of the six types, returns an error
    whenever an I/O operation it performed failed.  SaveGoCode returns an
    error exactly when the file could not be created: what its writes and
    its close return is dropped. *)
Theorem Save_reports_checked_failures :
  reports_every_failure (SaveJSON ro) /\
  forall v filename w,
    (SaveGoCode Quote ro v filename w).2 <> None <-> filename ∈ locked w.
Proof.
  split; [apply SaveJSON_reports_every_failure | apply SaveGoCode_result].
Qed.

End SaveErrors.

(** Saving to a path that cannot be opened. *)
Lemma Save_reports_checked_failures_witness :
  let w := mkWorld ∅ {["locked.params"]} 1 0 in
  let v := TSets example_Sets in
  (SaveJSON range_ascending v "locked.params" w).1.(failed_ops)
    <> w.(failed_ops) /\
  (SaveJSON range_ascending v "locked.params" w).2 <> None /\
  (SaveGoCode QuoteASCII range_ascending v "locked.params" w).2 <> None.
Proof.
  intros w v.
  destruct (Save_reports_checked_failures QuoteASCII range_ascending)
    as [HJSON HGo].
  assert (Hfailed :
            (SaveJSON range_ascending v "locked.params" w).1.(failed_ops)
            <> w.(failed_ops)) by (vm_compute; discriminate).
  split; [exact Hfailed|]. split.
  - apply HJSON, Hfailed.
  - apply HGo. subst w. cbn [locked]. set_solver.
Defined.

(** C2, counterexample.  On a device that accepts no write, SaveGoCode
    creates the file, every write fails, and the call returns nil. *)
Lemma SaveGoCode_swallows_write_errors :
  let w := mkWorld ∅ ∅ 0 0 in
  let r := SaveGoCode QuoteASCII range_ascending (TParams ∅) "saved.go" w in
  r.1.(failed_ops) <> w.(failed_ops) /\ r.2 = None.
Proof. vm_compute. split; [discriminate | reflexivity]. Qed.

(** ** params: saving and loading JSON *)

Section Decoding.

(** A key names a field under the folding of names: [DESC], and [Deſc]
    written with the long s (bytes C5 BF), both set Desc; a key that
    differs by more names no field and is skipped. *)
Lemma Sel_fromJSON_folded_keys (old : Sel) (d1 d2 : string) :
  let long_s := String "197" (String "191" "") in
  Sel_fromJSON (JObject [("DESC", JString d1);
                         ("De" +:+ long_s +:+ "c", JString d2);
                         ("Descr", JString "skipped")]) old
  = (mkSel (Sel_Sel old) d2 (Sel_Params old), None).
Proof. reflexivity. Qed.

Lemma slice_fromJSON_toJSON {T} (enc : T -> JSON)
    (dec : JSON -> T * option error) (l : list T) :
  Forall (fun x => dec (enc x) = (x, None)) l ->
  slice_fromJSON dec (map enc l) = (l, None).
Proof.
  intros Hl. unfold slice_fromJSON.
  enough (Hacc : forall acc : list T,
             foldl (fun '(l0, err) ej =>
                      let '(x, e) := dec ej in (l0 ++ [x], saveError err e))
                   (acc, None) (map enc l) = (acc ++ l, None))
    by apply (Hacc []).
  induction Hl as [|x l Hx Hl IH]; intros acc; cbn [map foldl].
  - by rewrite app_nil_r.
  - rewrite Hx. cbn [saveError]. rewrite IH. by rewrite <- app_assoc.
Qed.

Lemma map_fromJSON_members {V} (dec : JSON -> V * option error)
    (F : string -> string * JSON) (m : gmap string V) (ks : list string) :
  Forall (fun k => exists v, m !! k = Some v /\ (F k).1 = k /\
                             dec (F k).2 = (v, None)) ks ->
  forall acc : gmap string V,
    exists acc',
      map_fromJSON dec (map F ks) acc = (acc', None) /\
      forall k, acc' !! k = if decide (k ∈ ks) then m !! k else acc !! k.
Proof.
  unfold map_fromJSON.
  induction 1 as [|x ks (v & Hv & Hk & Hdec) Hks IH]; intros acc;
    cbn [map foldl].
  - exists acc. split; [done|]. intros k.
    destruct (decide (k ∈ [])) as [Hin|]; [|done].
    by apply elem_of_nil in Hin.
  - destruct (F x) as [k' vj] eqn:HF. cbn [fst snd] in Hk, Hdec. subst k'.
    rewrite Hdec. cbn [saveError].
    destruct (IH (<[x := v]> acc)) as (acc' & Hfold & Hlook).
    exists acc'. split; [exact Hfold|]. intros k. rewrite Hlook.
    destruct (decide (k ∈ ks)) as [Hin|Hnin].
    + rewrite decide_True by (by right). done.
    + destruct (decide (k = x)) as [->|Hne].
      * rewrite decide_True by (by left). by rewrite lookup_insert_eq.
      * rewrite decide_False.
        -- by rewrite lookup_insert_ne.
        -- intros [?|?]%elem_of_cons; done.
Qed.

Lemma map_fromJSON_toJSON {V} (ro : RangeOrder) (enc : V -> JSON)
    (dec : JSON -> V * option error) (zero : V) (m : gmap string V) :
  map_Forall (fun k v => ValidUTF8 k /\ dec (enc v) = (v, None)) m ->
  map_fromJSON dec (map_members ro enc zero m) ∅ = (m, None).
Proof.
  intros Hm. unfold map_members.
  destruct (map_fromJSON_members dec
              (fun k => (toValidUTF8 k, enc (default zero (m !! k)))) m
              (SortStrings (range_keys ro m)))
    with (acc := (∅ : gmap string V))
    as (acc' & Hfold & Hlook).
  - apply Forall_forall. intros k [v Hv]%elem_of_sorted_keys.
    destruct (Hm k v Hv) as [Hk Hdec].
    exists v. cbn [fst snd]. rewrite Hv. cbn [default from_option id].
    done.
  - rewrite Hfold. f_equal. apply map_eq. intros k. rewrite Hlook.
    destruct (decide (k ∈ _)) as [Hin|Hnin]; [done|].
    rewrite lookup_empty. symmetry. apply eq_None_not_Some.
    by rewrite <- (elem_of_sorted_keys ro).
Qed.

Variable ro : RangeOrder.

Lemma string_roundtrip (s old : string) :
  ValidUTF8 s -> string_fromJSON (string_toJSON s) old = (s, None).
Proof. unfold ValidUTF8, string_toJSON. intros ->. reflexivity. Qed.

Lemma Params_roundtrip (pr : Params) :
  valid_Params pr ->
  Params_fromJSON (Params_toJSON ro pr) ∅ = (pr, None).
Proof.
  intros Hpr. unfold Params_toJSON, map_toJSON, Params_fromJSON.
  apply map_fromJSON_toJSON. intros k v Hkv. destruct (Hpr k v Hkv).
  split; [done|]. by apply string_roundtrip.
Qed.

Lemma Sel_roundtrip (s : Sel) :
  valid_Sel s -> Sel_fromJSON (Sel_toJSON ro s) zero_Sel = (s, None).
Proof.
  intros (Hsel & Hdesc & Hpr). destruct s as [sel desc pr].
  cbn [Sel_Sel Sel_Desc Sel_Params] in *.
  unfold Sel_toJSON, Sel_fromJSON. cbn [foldl Sel_Sel Sel_Desc Sel_Params].
  unfold Sel_member at 3.
  change (field_match "Sel" "Sel") with true. cbn iota.
  rewrite string_roundtrip by done. cbn [saveError Sel_Sel Sel_Desc Sel_Params].
  unfold Sel_member at 2.
  change (field_match "Sel" "Desc") with false.
  change (field_match "Desc" "Desc") with true. cbn iota.
  rewrite string_roundtrip by done.
  cbn [saveError zero_Sel Sel_Sel Sel_Desc Sel_Params].
  unfold Sel_member.
  change (field_match "Sel" "Params") with false.
  change (field_match "Desc" "Params") with false.
  change (field_match "Params" "Params") with true. cbn iota.
  cbn [zero_Sel Sel_Sel Sel_Desc Sel_Params].
  rewrite Params_roundtrip by done. reflexivity.
Qed.

Lemma Sheet_roundtrip (sh old : Sheet) :
  Forall valid_Sel sh -> Sheet_fromJSON (Sheet_toJSON ro sh) old = (sh, None).
Proof.
  intros Hsh. unfold Sheet_toJSON, Sheet_fromJSON.
  apply slice_fromJSON_toJSON.
  eapply Forall_impl; [exact Hsh|]. intros s Hs. by apply Sel_roundtrip.
Qed.

Lemma Sheets_roundtrip (ss : Sheets) :
  valid_Sheets ss -> Sheets_fromJSON (Sheets_toJSON ro ss) ∅ = (ss, None).
Proof.
  intros Hss. unfold Sheets_toJSON, map_toJSON, Sheets_fromJSON.
  apply map_fromJSON_toJSON. intros k v Hkv. destruct (Hss k v Hkv).
  split; [done|]. by apply Sheet_roundtrip.
Qed.

Lemma Set_roundtrip (s : Set_) :
  valid_Set s -> Set_fromJSON (Set_toJSON ro s) zero_Set = (s, None).
Proof.
  intros (Hname & Hdesc & Hss). destruct s as [name desc ss].
  cbn [Set_Name Set_Desc Set_Sheets] in *.
  unfold Set_toJSON, Set_fromJSON. cbn [foldl].
  unfold Set_member at 3.
  change (field_match "Name" "Name") with true. cbn iota.
  rewrite string_roundtrip by done.
  cbn [saveError zero_Set Set_Name Set_Desc Set_Sheets].
  unfold Set_member at 2.
  change (field_match "Name" "Desc") with false.
  change (field_match "Desc" "Desc") with true. cbn iota.
  rewrite string_roundtrip by done.
  cbn [saveError Set_Name Set_Desc Set_Sheets].
  unfold Set_member.
  change (field_match "Name" "Sheets") with false.
  change (field_match "Desc" "Sheets") with false.
  change (field_match "Sheets" "Sheets") with true. cbn iota.
  cbn [Set_Name Set_Desc Set_Sheets].
  rewrite Sheets_roundtrip by done. reflexivity.
Qed.

Lemma Sets_roundtrip (ss old : Sets) :
  valid_Sets ss -> Sets_fromJSON (Sets_toJSON ro ss) old = (ss, None).
Proof.
  intros Hss. unfold Sets_toJSON, Sets_fromJSON.
  apply slice_fromJSON_toJSON.
  eapply Forall_impl; [exact Hss|]. intros s Hs. by apply Set_roundtrip.
Qed.

Lemma ioutil_WriteFile_then_ReadFile (filename : string) (data : FileData)
    (w : World) :
  (ioutil_WriteFile filename data w).2 = None ->
  ioutil_ReadFile filename (ioutil_WriteFile filename data w).1
  = ((ioutil_WriteFile filename data w).1, data, None).
Proof.
  unfold ioutil_WriteFile, os_Create, ioutil_ReadFile.
  destruct (decide (filename ∈ locked w)) as [|Hfree]; [done|].
  cbn [writes_left files locked failed_ops].
  destruct (writes_left w); [done|]. intros _.
  cbn [File_Close fst snd locked files].
  rewrite decide_False by done. by rewrite lookup_insert_eq.
Qed.

(** C3 (amended).  For a Sets value whose strings are all valid UTF-8,
    SaveJSON followed by OpenJSON of the file it wrote gives back the same
    tree, whatever the receiver held before. *)
Theorem Sets_SaveJSON_OpenJSON_roundtrip (pr old : Sets)
    (filename : string) (w : World) :
  valid_Sets pr ->
  (Sets_SaveJSON ro pr filename w).2 = None ->
  let w' := (Sets_SaveJSON ro pr filename w).1 in
  Sets_OpenJSON old filename w' = (w', pr, None).
Proof.
  intros Hvalid Hsaved w'. subst w'. revert Hsaved.
  unfold Sets_SaveJSON, Sets_OpenJSON, json_MarshalIndent.
  intros Hsaved. rewrite ioutil_WriteFile_then_ReadFile by exact Hsaved.
  unfold json_Unmarshal. by rewrite Sets_roundtrip.
Qed.

End Decoding.

(** C3, counterexample.  A Set whose name is the byte 0xFF is saved and
    loaded without error, and comes back named U+FFFD. *)
Lemma Sets_roundtrip_loses_invalid_bytes :
  let pr : Sets := [mkSet bad_name "" ∅] in
  let w := mkWorld ∅ ∅ 1 0 in
  let saved := Sets_SaveJSON range_ascending pr "sets.params" w in
  let opened := Sets_OpenJSON [] "sets.params" saved.1 in
  saved.2 = None /\ opened.2 = None /\
  opened.1.2 = [mkSet replacement "" ∅] /\ opened.1.2 <> pr.
Proof.
  vm_compute. repeat split. discriminate.
Qed.

(** Two sets, saved and loaded again. *)
Lemma Sets_SaveJSON_OpenJSON_roundtrip_witness :
  let w := mkWorld ∅ ∅ 1 0 in
  let w' := (Sets_SaveJSON range_reversed example_Sets "sets.params" w).1 in
  Sets_OpenJSON [] "sets.params" w' = (w', example_Sets, None).
Proof.
  intros w.
  apply (Sets_SaveJSON_OpenJSON_roundtrip range_reversed example_Sets []
           "sets.params" w).
  - apply (bool_decide_unpack _). vm_compute. exact I.
  - vm_compute. reflexivity.
Defined.

(** ** params: loading into a receiver *)

Section Loading.

(** The receivers that OpenJSON resets take nothing from their old value. *)
Lemma OpenJSON_reset_receivers_ignore_old (filename : string) (w : World) :
  (forall old1 old2 : Params,
     Params_OpenJSON old1 filename w = Params_OpenJSON old2 filename w) /\
  (forall old1 old2 : Sheet,
     Sheet_OpenJSON old1 filename w = Sheet_OpenJSON old2 filename w) /\
  (forall old1 old2 : Sheets,
     Sheets_OpenJSON old1 filename w = Sheets_OpenJSON old2 filename w) /\
  (forall old1 old2 : Sets,
     Sets_OpenJSON old1 filename w = Sets_OpenJSON old2 filename w).
Proof. repeat split. Qed.

(** C6 (amended).  For the receivers that OpenJSON resets (Params, Sheet,
    Sheets, Sets): when the file cannot be opened, does not exist, or does
    not hold a well-formed JSON text, the call returns an error and the
    receiver is left empty. *)
Theorem OpenJSON_failed_read_leaves_receiver_reset
    (filename : string) (w : World) :
  filename ∈ locked w \/ files w !! filename = None \/
  (exists bytes, files w !! filename = Some (NotJSON bytes)) ->
  (forall old : Params,
     (Params_OpenJSON old filename w).2 <> None /\
     (Params_OpenJSON old filename w).1.2 = ∅) /\
  (forall old : Sheet,
     (Sheet_OpenJSON old filename w).2 <> None /\
     (Sheet_OpenJSON old filename w).1.2 = []) /\
  (forall old : Sheets,
     (Sheets_OpenJSON old filename w).2 <> None /\
     (Sheets_OpenJSON old filename w).1.2 = ∅) /\
  (forall old : Sets,
     (Sets_OpenJSON old filename w).2 <> None /\
     (Sets_OpenJSON old filename w).1.2 = []).
Proof.
  intros Hbad.
  unfold Params_OpenJSON, Sheet_OpenJSON, Sheets_OpenJSON, Sets_OpenJSON,
    ioutil_ReadFile.
  destruct (decide (filename ∈ locked w)) as [|Hfree];
    [by repeat split|].
  destruct Hbad as [Hlocked | [Hnone | [bytes Hbytes]]]; [done| |].
  - rewrite Hnone. by repeat split.
  - rewrite Hbytes. by repeat split.
Qed.

End Loading.

(** Loading a file of Go code into a Params that holds an entry. *)
Lemma OpenJSON_failed_read_leaves_receiver_reset_witness :
  let w := mkWorld (<["go.params" := NotJSON "package main"]> ∅) ∅ 0 0 in
  let old : Params := <["Act.Gain" := "1"]> ∅ in
  (Params_OpenJSON old "go.params" w).2 <> None /\
  (Params_OpenJSON old "go.params" w).1.2 = ∅.
Proof.
  intros w old.
  apply (OpenJSON_failed_read_leaves_receiver_reset "go.params" w).
  right. right. exists "package main". vm_compute. reflexivity.
Defined.

(** C6, counterexample.  A well-formed document with a number where a
    string is expected: the load fails with a type error, and the entry
    decoded before it is in the receiver. *)
Lemma Params_OpenJSON_type_error_keeps_entries :
  let doc := JObject [("Act.Gain", JString "1"); ("Act.Bias", JNumber "2")] in
  let w := mkWorld (<["p.params" := JSONDoc doc]> ∅) ∅ 0 0 in
  let r := Params_OpenJSON ∅ "p.params" w in
  r.2 = Some (UnmarshalTypeError "number" "string") /\
  r.1.2 !! "Act.Gain" = Some "1" /\ r.1.2 <> ∅.
Proof.
  vm_compute. repeat split. discriminate.
Qed.

(** C1.  Sel.OpenJSON and Set.OpenJSON do not reset the receiver: loading
    a saved Sel into a Sel that holds a parameter keeps that parameter
    next to the loaded one, and loading a saved Set into a Set that holds a
    sheet keeps that sheet; loaded into zero values, the same files give
    the saved values. *)
Lemma Sel_Set_OpenJSON_merge_into_old :
  let w0 := mkWorld ∅ ∅ 2 0 in
  let new_sel := mkSel ".Fast" "new" (<["Learn.Lrate" := "0.1"]> ∅) in
  let old_sel := mkSel "Hidden" "old" (<["Act.Gain" := "1"]> ∅) in
  let new_set := mkSet "Variant" "new" (<["Env" := []]> ∅) in
  let old_set := mkSet "Base" "old" (<["Network" := [old_sel]]> ∅) in
  let w1 := (Sel_SaveJSON range_ascending new_sel "sel.params" w0).1 in
  let w2 := (Set_SaveJSON range_ascending new_set "set.params" w1).1 in
  Sel_OpenJSON old_sel "sel.params" w2
  = (w2, mkSel ".Fast" "new"
            (<["Act.Gain" := "1"]> (<["Learn.Lrate" := "0.1"]> ∅)), None) /\
  Set_OpenJSON old_set "set.params" w2
  = (w2, mkSet "Variant" "new"
            (<["Network" := [old_sel]]> (<["Env" := []]> ∅)), None) /\
  Sel_OpenJSON zero_Sel "sel.params" w2 = (w2, new_sel, None) /\
  Set_OpenJSON zero_Set "set.params" w2 = (w2, new_set, None).
Proof. vm_compute. repeat split. Qed.

(** ** params: saving and loading the other types *)

Section MoreRoundTrips.

Variable ro : RangeOrder.

Lemma map_fromJSON_into {V} (enc : V -> JSON)
    (dec : JSON -> V * option error) (zero : V) (m old : gmap string V) :
  map_Forall (fun k v => ValidUTF8 k /\ dec (enc v) = (v, None)) m ->
  map_fromJSON dec (map_members ro enc zero m) old = (m ∪ old, None).
Proof.
  intros Hm. unfold map_members.
  destruct (map_fromJSON_members dec
              (fun k => (toValidUTF8 k, enc (default zero (m !! k)))) m
              (SortStrings (range_keys ro m))) with (acc := old)
    as (acc' & Hfold & Hlook).
  - apply Forall_forall. intros k [v Hv]%elem_of_sorted_keys.
    destruct (Hm k v Hv) as [Hk Hdec].
    exists v. cbn [fst snd]. rewrite Hv. cbn [default from_option id].
    done.
  - rewrite Hfold. f_equal. apply map_eq. intros k.
    rewrite Hlook, lookup_union.
    destruct (decide (k ∈ _)) as [Hin|Hnin].
    + apply elem_of_sorted_keys in Hin as [v Hv]. rewrite Hv.
      by destruct (old !! k).
    + assert (Hnone : m !! k = None).
      { apply eq_None_not_Some. by rewrite <- (elem_of_sorted_keys ro). }
      rewrite Hnone. by destruct (old !! k).
Qed.

Lemma Sel_fromJSON_into (s old : Sel) :
  valid_Sel s ->
  Sel_fromJSON (Sel_toJSON ro s) old
  = (mkSel (Sel_Sel s) (Sel_Desc s) (Sel_Params s ∪ Sel_Params old), None).
Proof.
  intros (Hsel & Hdesc & Hpr). destruct s as [sel desc pr].
  destruct old as [osel odesc opr].
  cbn [Sel_Sel Sel_Desc Sel_Params] in *.
  unfold Sel_toJSON, Sel_fromJSON. cbn [foldl].
  unfold Sel_member at 3.
  change (field_match "Sel" "Sel") with true. cbn iota.
  rewrite string_roundtrip by done.
  cbn [saveError Sel_Sel Sel_Desc Sel_Params].
  unfold Sel_member at 2.
  change (field_match "Sel" "Desc") with false.
  change (field_match "Desc" "Desc") with true. cbn iota.
  rewrite string_roundtrip by done.
  cbn [saveError Sel_Sel Sel_Desc Sel_Params].
  unfold Sel_member.
  change (field_match "Sel" "Params") with false.
  change (field_match "Desc" "Params") with false.
  change (field_match "Params" "Params") with true. cbn iota.
  cbn [Sel_Sel Sel_Desc Sel_Params].
  unfold Params_toJSON, map_toJSON, Params_fromJSON.
  rewrite map_fromJSON_into; [done|].
  intros k v Hkv. destruct (Hpr k v Hkv).
  split; [done|]. by apply string_roundtrip.
Qed.

Lemma Set_fromJSON_into (s old : Set_) :
  valid_Set s ->
  Set_fromJSON (Set_toJSON ro s) old
  = (mkSet (Set_Name s) (Set_Desc s) (Set_Sheets s ∪ Set_Sheets old), None).
Proof.
  intros (Hname & Hdesc & Hss). destruct s as [name desc ss].
  destruct old as [oname odesc oss].
  cbn [Set_Name Set_Desc Set_Sheets] in *.
  unfold Set_toJSON, Set_fromJSON. cbn [foldl].
  unfold Set_member at 3.
  change (field_match "Name" "Name") with true. cbn iota.
  rewrite string_roundtrip by done.
  cbn [saveError Set_Name Set_Desc Set_Sheets].
  unfold Set_member at 2.
  change (field_match "Name" "Desc") with false.
  change (field_match "Desc" "Desc") with true. cbn iota.
  rewrite string_roundtrip by done.
  cbn [saveError Set_Name Set_Desc Set_Sheets].
  unfold Set_member.
  change (field_match "Name" "Sheets") with false.
  change (field_match "Desc" "Sheets") with false.
  change (field_match "Sheets" "Sheets") with true. cbn iota.
  cbn [Set_Name Set_Desc Set_Sheets].
  unfold Sheets_toJSON, map_toJSON, Sheets_fromJSON.
  rewrite map_fromJSON_into; [done|].
  intros k v Hkv. destruct (Hss k v Hkv).
  split; [done|]. by apply Sheet_roundtrip.
Qed.

Variable filename : string.
Variable w : World.

(** X12.  A Params, a Sheet or a Sheets whose strings are valid UTF-8, saved
    with SaveJSON and loaded with OpenJSON from the file, comes back as it
    was, whatever the receiver held. *)
Theorem SaveJSON_OpenJSON_roundtrip_of_reset_types :
  (forall pr old : Params,
     valid_Params pr -> (Params_SaveJSON ro pr filename w).2 = None ->
     let w' := (Params_SaveJSON ro pr filename w).1 in
     Params_OpenJSON old filename w' = (w', pr, None)) /\
  (forall pr old : Sheet,
     Forall valid_Sel pr -> (Sheet_SaveJSON ro pr filename w).2 = None ->
     let w' := (Sheet_SaveJSON ro pr filename w).1 in
     Sheet_OpenJSON old filename w' = (w', pr, None)) /\
  (forall pr old : Sheets,
     valid_Sheets pr -> (Sheets_SaveJSON ro pr filename w).2 = None ->
     let w' := (Sheets_SaveJSON ro pr filename w).1 in
     Sheets_OpenJSON old filename w' = (w', pr, None)).
Proof.
  split; [|split]; intros pr old Hvalid Hsaved w'; subst w'; revert Hsaved.
  - unfold Params_SaveJSON, Params_OpenJSON, json_MarshalIndent.
    intros Hsaved. rewrite ioutil_WriteFile_then_ReadFile by exact Hsaved.
    unfold json_Unmarshal. by rewrite Params_roundtrip.
  - unfold Sheet_SaveJSON, Sheet_OpenJSON, json_MarshalIndent.
    intros Hsaved. rewrite ioutil_WriteFile_then_ReadFile by exact Hsaved.
    unfold json_Unmarshal. by rewrite Sheet_roundtrip.
  - unfold Sheets_SaveJSON, Sheets_OpenJSON, json_MarshalIndent.
    intros Hsaved. rewrite ioutil_WriteFile_then_ReadFile by exact Hsaved.
    unfold json_Unmarshal. by rewrite Sheets_roundtrip.
Qed.

(** X13.  A saved Sel that has a parameter, loaded into a receiver: the
    pattern and the description are the saved ones, and the parameters are
    the saved ones together with those the receiver held under other
    paths.  A Params with an entry is not nil, so it is saved as an object
    and not as null, which would empty the receiver's map. *)
Theorem Sel_OpenJSON_after_SaveJSON (pr old : Sel) :
  Sel_Params pr <> ∅ ->
  valid_Sel pr -> (Sel_SaveJSON ro pr filename w).2 = None ->
  let w' := (Sel_SaveJSON ro pr filename w).1 in
  Sel_OpenJSON old filename w'
  = (w', mkSel (Sel_Sel pr) (Sel_Desc pr) (Sel_Params pr ∪ Sel_Params old),
     None).
Proof.
  intros _ Hvalid Hsaved w'. subst w'. revert Hsaved.
  unfold Sel_SaveJSON, Sel_OpenJSON, json_MarshalIndent.
  intros Hsaved. rewrite ioutil_WriteFile_then_ReadFile by exact Hsaved.
  unfold json_Unmarshal. by rewrite Sel_fromJSON_into.
Qed.

(** X14.  A saved Set that has a sheet, loaded into a receiver: the name
    and the description are the saved ones, and the sheets are the saved
    ones together with those the receiver held under other names.  A
    Sheets with an entry is not nil, so it is saved as an object and not
    as null, which would empty the receiver's map. *)
Theorem Set_OpenJSON_after_SaveJSON (pr old : Set_) :
  Set_Sheets pr <> ∅ ->
  valid_Set pr -> (Set_SaveJSON ro pr filename w).2 = None ->
  let w' := (Set_SaveJSON ro pr filename w).1 in
  Set_OpenJSON old filename w'
  = (w', mkSet (Set_Name pr) (Set_Desc pr) (Set_Sheets pr ∪ Set_Sheets old),
     None).
Proof.
  intros _ Hvalid Hsaved w'. subst w'. revert Hsaved.
  unfold Set_SaveJSON, Set_OpenJSON, json_MarshalIndent.
  intros Hsaved. rewrite ioutil_WriteFile_then_ReadFile by exact Hsaved.
  unfold json_Unmarshal. by rewrite Set_fromJSON_into.
Qed.

End MoreRoundTrips.

(** X12, witness.  A Sheets saved and loaded into a receiver that holds
    another sheet. *)
Lemma SaveJSON_OpenJSON_roundtrip_of_reset_types_witness :
  let w := mkWorld ∅ ∅ 1 0 in
  let sel := mkSel "Layer" "all layers" (<["Act.Gain" := "1.5"]> ∅) in
  let pr : Sheets := <["Network" := [sel]]> ∅ in
  let old : Sheets := <["Env" := []]> ∅ in
  let w' := (Sheets_SaveJSON range_ascending pr "sheets.params" w).1 in
  Sheets_OpenJSON old "sheets.params" w' = (w', pr, None).
Proof.
  intros w sel pr old.
  apply (proj2 (proj2 (SaveJSON_OpenJSON_roundtrip_of_reset_types
                         range_ascending "sheets.params" w))).
  - apply (bool_decide_unpack _). vm_compute. exact I.
  - vm_compute. reflexivity.
Defined.

(** X13, witness.  A Sel saved and loaded into a receiver with a parameter of
    its own
    and one under a saved path. *)
Lemma Sel_OpenJSON_after_SaveJSON_witness :
  let w := mkWorld ∅ ∅ 1 0 in
  let pr := mkSel ".Fast" "new" (<["Learn.Lrate" := "0.1"]> ∅) in
  let old := mkSel "Hidden" "old"
               (<["Act.Gain" := "1"]> (<["Learn.Lrate" := "0.5"]> ∅)) in
  let w' := (Sel_SaveJSON range_ascending pr "sel.params" w).1 in
  Sel_OpenJSON old "sel.params" w'
  = (w', mkSel ".Fast" "new" (Sel_Params pr ∪ Sel_Params old), None).
Proof.
  intros w pr old.
  apply (Sel_OpenJSON_after_SaveJSON range_ascending "sel.params" w pr old).
  - intros Hnil. apply (f_equal (fun m => m !! "Learn.Lrate")) in Hnil.
    vm_compute in Hnil. discriminate.
  - apply (bool_decide_unpack _). vm_compute. exact I.
  - vm_compute. reflexivity.
Defined.

(** X14, witness.  A Set saved and loaded into a receiver that holds another
    sheet. *)
Lemma Set_OpenJSON_after_SaveJSON_witness :
  let w := mkWorld ∅ ∅ 1 0 in
  let pr := mkSet "Variant" "new" (<["Env" := []]> ∅) in
  let old := mkSet "Base" "old" (<["Network" := []]> ∅) in
  let w' := (Set_SaveJSON range_ascending pr "set.params" w).1 in
  Set_OpenJSON old "set.params" w'
  = (w', mkSet "Variant" "new" (Set_Sheets pr ∪ Set_Sheets old), None).
Proof.
  intros w pr old.
  apply (Set_OpenJSON_after_SaveJSON range_ascending "set.params" w pr old).
  - intros Hnil. apply (f_equal (fun m => m !! "Env")) in Hnil.
    vm_compute in Hnil. discriminate.
  - apply (bool_decide_unpack _). vm_compute. exact I.
  - vm_compute. reflexivity.
Defined.

(** ** params: what SaveGoCode writes *)

Section WriterRelation.

Variable Quote : string -> string.
Variable ro : RangeOrder.

Context {W1 W2 : Type} `{Writer W1} `{Writer W2}.
Variable R : W1 -> W2 -> Prop.
Hypothesis R_Write :
  forall w1 w2 b, R w1 w2 -> R (Write_ w1 b) (Write_ w2 b).

Lemma foldl_related {A} (f1 : W1 -> A -> W1) (f2 : W2 -> A -> W2)
    (l : list A) (w1 : W1) (w2 : W2) :
  (forall a1 a2 x, R a1 a2 -> R (f1 a1 x) (f2 a2 x)) ->
  R w1 w2 -> R (foldl f1 w1 l) (foldl f2 w2 l).
Proof.
  intros Hf. revert w1 w2.
  induction l as [|x l IH]; intros w1 w2 Hw; cbn [foldl]; auto.
Qed.

Lemma WriteGoPrelude_related (varNm : string) (w1 : W1) (w2 : W2) :
  R w1 w2 -> R (WriteGoPrelude w1 varNm) (WriteGoPrelude w2 varNm).
Proof. intros Hw. unfold WriteGoPrelude. auto. Qed.

Lemma Params_WriteGoCode_related (pr : Params) (depth : nat)
    (w1 : W1) (w2 : W2) :
  R w1 w2 ->
  R (Params_WriteGoCode Quote ro pr w1 depth)
    (Params_WriteGoCode Quote ro pr w2 depth).
Proof.
  intros Hw. unfold Params_WriteGoCode.
  do 2 apply R_Write. apply foldl_related; auto.
Qed.

Lemma Sel_WriteGoCode_related (pr : Sel) (depth : nat)
    (w1 : W1) (w2 : W2) :
  R w1 w2 ->
  R (Sel_WriteGoCode Quote ro pr w1 depth)
    (Sel_WriteGoCode Quote ro pr w2 depth).
Proof.
  intros Hw. unfold Sel_WriteGoCode.
  apply Params_WriteGoCode_related. auto.
Qed.

Lemma Sheet_WriteGoCode_related (pr : Sheet) (depth : nat)
    (w1 : W1) (w2 : W2) :
  R w1 w2 ->
  R (Sheet_WriteGoCode Quote ro pr w1 depth)
    (Sheet_WriteGoCode Quote ro pr w2 depth).
Proof.
  intros Hw. unfold Sheet_WriteGoCode.
  do 2 apply R_Write. apply foldl_related; [|auto].
  intros a1 a2 x Ha. apply R_Write, Sel_WriteGoCode_related. auto.
Qed.

Lemma Sheets_WriteGoCode_related (pr : Sheets) (depth : nat)
    (w1 : W1) (w2 : W2) :
  R w1 w2 ->
  R (Sheets_WriteGoCode Quote ro pr w1 depth)
    (Sheets_WriteGoCode Quote ro pr w2 depth).
Proof.
  intros Hw. unfold Sheets_WriteGoCode.
  do 2 apply R_Write. apply foldl_related; [|auto].
  intros a1 a2 x Ha. apply Sheet_WriteGoCode_related. auto.
Qed.

Lemma Set_WriteGoCode_related (pr : Set_) (depth : nat)
    (w1 : W1) (w2 : W2) :
  R w1 w2 ->
  R (Set_WriteGoCode Quote ro pr w1 depth)
    (Set_WriteGoCode Quote ro pr w2 depth).
Proof.
  intros Hw. unfold Set_WriteGoCode.
  apply Sheets_WriteGoCode_related. auto.
Qed.

Lemma Sets_WriteGoCode_related (pr : Sets) (depth : nat)
    (w1 : W1) (w2 : W2) :
  R w1 w2 ->
  R (Sets_WriteGoCode Quote ro pr w1 depth)
    (Sets_WriteGoCode Quote ro pr w2 depth).
Proof.
  intros Hw. unfold Sets_WriteGoCode.
  do 2 apply R_Write. apply foldl_related; [|auto].
  intros a1 a2 x Ha. apply R_Write, Set_WriteGoCode_related. auto.
Qed.

Lemma WriteGoCode_related (v : Tree) (depth : nat) (w1 : W1) (w2 : W2) :
  R w1 w2 ->
  R (WriteGoCode Quote ro v w1 depth) (WriteGoCode Quote ro v w2 depth).
Proof.
  intros Hw. destruct v; cbn [WriteGoCode].
  - by apply Params_WriteGoCode_related.
  - by apply Sel_WriteGoCode_related.
  - by apply Sheet_WriteGoCode_related.
  - by apply Sheets_WriteGoCode_related.
  - by apply Set_WriteGoCode_related.
  - by apply Sets_WriteGoCode_related.
Qed.

End WriterRelation.

Section SaveGoCodeText.

Variable Quote : string -> string.
Variable ro : RangeOrder.

Lemma SaveGoCode_unfold (v : Tree) (filename : string) (w : World) :
  SaveGoCode Quote ro v filename w
  = match os_Create filename w with
    | (w, fp, Some err) => let '(w, _) := File_Close fp w in (w, Some err)
    | (w, fp, None) =>
        let f := WriteGoCode Quote ro v
                   (WriteGoPrelude (mkOSFile fp w) (SavedVarNm v)) 0 in
        let '(w, _) := File_Close f.(handle) f.(world) in
        (w, None)
    end.
Proof. destruct v; reflexivity. Qed.

Lemma StringGoCode_unfold (v : Tree) :
  StringGoCode Quote ro v = WriteGoCode Quote ro v ("" : Buffer) 0.
Proof. destruct v; reflexivity. Qed.

Lemma SaveGoCode_tally_text (v : Tree) :
  text (SaveGoCode_tally Quote ro v)
  = WriteGoPrelude ("" : Buffer) (SavedVarNm v) +:+ StringGoCode Quote ro v.
Proof.
  unfold SaveGoCode_tally. rewrite StringGoCode_unfold.
  set (p := WriteGoPrelude ("" : Buffer) (SavedVarNm v)).
  transitivity (WriteGoCode Quote ro v p 0).
  - apply (WriteGoCode_related Quote ro (fun (t : Tally) (b : Buffer) =>
                                           text t = b)).
    + intros t b s <-. reflexivity.
    + apply (WriteGoPrelude_related (fun (t : Tally) (b : Buffer) =>
                                       text t = b)).
      * intros t b s <-. reflexivity.
      * reflexivity.
  - apply (WriteGoCode_related Quote ro (fun b1 b2 : Buffer =>
                                           b1 = p +:+ b2)).
    + intros b1 b2 s ->. unfold Write_, Write, Buffer_Writer. cbn [fst].
      by rewrite append_assoc.
    + by rewrite append_empty_r.
Qed.

Lemma written_Write (filename : string) (w0 : World) (f : OSFile)
    (t : Tally) (b : string) :
  written filename w0 f t -> written filename w0 (Write_ f b) (Write_ t b).
Proof.
  destruct f as [h wf]. destruct t as [tx n].
  unfold written, Write_, Write, Tally_Writer, OSFile_Writer, File_Write.
  cbn [fst text writes handle world].
  intros Hf Hle. destruct Hf as (Hh & Hfile & Hleft & Hfailed & Hother);
    [lia|].
  rewrite Hh. destruct (writes_left wf) as [|m] eqn:Hm; [lia|].
  rewrite Hfile. cbn [fst handle world files writes_left failed_ops].
  split; [done|]. split; [by rewrite lookup_insert_eq|].
  split; [lia|]. split; [done|].
  intros other Hne. rewrite lookup_insert_ne by done. by apply Hother.
Qed.

(** X15.  When the file can be created and the device accepts all the writes,
    SaveGoCode returns nil and the file holds the prelude, with the
    variable name of the type, followed by what StringGoCode returns;
    no other file changes. *)
Theorem SaveGoCode_writes_prelude_and_code (v : Tree) (filename : string)
    (w : World) :
  filename ∉ locked w ->
  (writes (SaveGoCode_tally Quote ro v) <= writes_left w)%nat ->
  let r := SaveGoCode Quote ro v filename w in
  r.2 = None /\
  files r.1 !! filename
  = Some (NotJSON (WriteGoPrelude ("" : Buffer) (SavedVarNm v)
                   +:+ StringGoCode Quote ro v)) /\
  failed_ops r.1 = failed_ops w /\
  forall other, other <> filename -> files r.1 !! other = files w !! other.
Proof.
  intros Hfree Hroom r. subst r. rewrite SaveGoCode_unfold.
  unfold os_Create. rewrite decide_False by done.
  set (w1 := mkWorld _ _ _ _).
  assert (Hrel : written filename w1
                   (WriteGoCode Quote ro v
                      (WriteGoPrelude (mkOSFile (Some filename) w1)
                                      (SavedVarNm v)) 0)
                   (SaveGoCode_tally Quote ro v)).
  { unfold SaveGoCode_tally.
    apply (WriteGoCode_related Quote ro (written filename w1)).
    - intros f t b. apply written_Write.
    - apply (WriteGoPrelude_related (written filename w1)).
      + intros f t b. apply written_Write.
      + intros _. cbn [handle world text writes]. subst w1.
        cbn [files writes_left failed_ops].
        split; [done|]. split; [by rewrite lookup_insert_eq|].
        split; [lia|]. split; [done|]. done. }
  destruct Hrel as (Hh & Hfile & _ & Hfailed & Hother); [done|].
  rewrite Hh. cbn [File_Close fst snd].
  rewrite Hfile, SaveGoCode_tally_text, Hfailed.
  split; [done|]. split; [done|]. split; [done|].
  intros other Hne. rewrite Hother by done. subst w1. cbn [files].
  by rewrite lookup_insert_ne.
Qed.

End SaveGoCodeText.

(** X15, witness.  Saving the example sets as Go code on a device that takes
    100 writes. *)
Lemma SaveGoCode_writes_prelude_and_code_witness :
  let w := mkWorld ∅ ∅ 100 0 in
  let r := SaveGoCode QuoteASCII range_ascending (TSets example_Sets)
                      "sets.go" w in
  r.2 = None /\
  files r.1 !! "sets.go"
  = Some (NotJSON (WriteGoPrelude ("" : Buffer) "SavedParamsSets"
                   +:+ Sets_StringGoCode QuoteASCII range_ascending
                         example_Sets)) /\
  failed_ops r.1 = 0%nat.
Proof.
  intros w r.
  destruct (SaveGoCode_writes_prelude_and_code QuoteASCII range_ascending
              (TSets example_Sets) "sets.go" w) as (H1 & H2 & H3 & _).
  - set_solver.
  - vm_compute. lia.
  - split; [exact H1|]. split; [exact H2|exact H3].
Defined.

(** ** The applier *)

Import applier.

Section Resolution.
Local Open Scope nat_scope.

Variable tgt : Target.

Lemma merge_param_lookup (sp : nat) (k v : string)
    (acc : gmap string (nat * string)) (path : string) :
  merge_param sp k v acc !! path
  = if decide (path = k)
    then match acc !! k with
         | Some (sp', v') => if sp' <=? sp then Some (sp, v)
                             else Some (sp', v')
         | None => Some (sp, v)
         end
    else acc !! path.
Proof.
  unfold merge_param. destruct (decide (path = k)) as [->|Hne].
  - destruct (acc !! k) as [[sp' v']|] eqn:Hk.
    + destruct (sp' <=? sp); [by rewrite lookup_insert_eq | done].
    + by rewrite lookup_insert_eq.
  - destruct (acc !! k) as [[sp' v']|].
    + destruct (sp' <=? sp); [by rewrite lookup_insert_ne | done].
    + by rewrite lookup_insert_ne.
Qed.

Lemma map_fold_merge_param (sp : nat) (m : gmap string string)
    (acc : gmap string (nat * string)) (path : string) :
  map_fold (merge_param sp) acc m !! path
  = match m !! path with
    | Some v => match acc !! path with
                | Some (sp', v') => if sp' <=? sp then Some (sp, v)
                                    else Some (sp', v')
                | None => Some (sp, v)
                end
    | None => acc !! path
    end.
Proof.
  revert path.
  apply (map_fold_weak_ind
           (fun r (m : gmap string string) =>
              forall path,
                r !! path
                = match m !! path with
                  | Some v => match acc !! path with
                              | Some (sp', v') =>
                                  if sp' <=? sp then Some (sp, v)
                                  else Some (sp', v')
                              | None => Some (sp, v)
                              end
                  | None => acc !! path
                  end)).
  - intros path. by rewrite lookup_empty.
  - intros k v m' r Hk IH path. rewrite merge_param_lookup.
    destruct (decide (path = k)) as [->|Hne].
    + rewrite lookup_insert_eq, IH, Hk. done.
    + rewrite lookup_insert_ne by done. apply IH.
Qed.

Lemma merge_Sel_lookup (acc : gmap string (nat * string)) (s : Sel)
    (path : string) :
  merge_Sel tgt acc s !! path
  = if matches tgt (Sel_Sel s)
    then match Sel_Params s !! path with
         | Some v =>
             let sp := specificity (parse_pattern (Sel_Sel s)).1 in
             match acc !! path with
             | Some (sp', v') => if sp' <=? sp then Some (sp, v)
                                 else Some (sp', v')
             | None => Some (sp, v)
             end
         | None => acc !! path
         end
    else acc !! path.
Proof.
  unfold merge_Sel. destruct (matches tgt (Sel_Sel s)); [|done].
  apply map_fold_merge_param.
Qed.

Lemma gives_snoc (l : Sheet) (s : Sel) (path : string) (i sp : nat)
    (v : string) :
  gives (l ++ [s]) tgt path i sp v
  <-> gives l tgt path i sp v \/
      (i = length l /\ matches tgt (Sel_Sel s) = true /\
       Sel_Params s !! path = Some v /\
       sp = specificity (parse_pattern (Sel_Sel s)).1).
Proof.
  unfold gives. split.
  - intros (s' & Hi & Hm & Hv & Hsp).
    apply lookup_snoc_Some in Hi as [[Hlt Hi]|[-> ->]].
    + left. by exists s'.
    + by right.
  - intros [(s' & Hi & Hm & Hv & Hsp)|(-> & Hm & Hv & Hsp)].
    + exists s'. split; [|done]. by apply lookup_app_l_Some.
    + exists s. split; [|done]. by rewrite list_lookup_middle.
Qed.

Lemma gives_lt (l : Sheet) (path : string) (i sp : nat) (v : string) :
  gives l tgt path i sp v -> i < length l.
Proof. intros (s & Hi & _). by apply lookup_lt_Some in Hi. Qed.

(** The working map after the sheet: each path holds the value of the
    matching Sel that is greatest by specificity, then by position. *)
Lemma foldl_merge_Sel (sheet : Sheet) (path : string) :
  match foldl (merge_Sel tgt) ∅ sheet !! path with
  | Some (sp, v) =>
      exists i, gives sheet tgt path i sp v /\
                forall j sp' v', gives sheet tgt path j sp' v' ->
                                 sp' < sp \/ (sp' = sp /\ j <= i)
  | None => forall i sp v, ~ gives sheet tgt path i sp v
  end.
Proof.
  induction sheet as [|s l IH] using rev_ind.
  - cbn [foldl]. rewrite lookup_empty. intros i sp v (s & Hi & _).
    by rewrite lookup_nil in Hi.
  - rewrite foldl_app. cbn [foldl]. rewrite merge_Sel_lookup.
    destruct (matches tgt (Sel_Sel s)) eqn:Hm.
    + destruct (Sel_Params s !! path) as [v|] eqn:Hv.
      * cbv zeta. set (sp := specificity _).
        assert (Hnew : gives (l ++ [s]) tgt path (length l) sp v).
        { apply gives_snoc. by right. }
        destruct (foldl (merge_Sel tgt) ∅ l !! path) as [[sp0 v0]|].
        -- destruct IH as (i0 & Hg0 & Hmax0).
           pose proof (gives_lt _ _ _ _ _ Hg0) as Hlt0.
           destruct (sp0 <=? sp) eqn:Hle.
           ++ apply Nat.leb_le in Hle. exists (length l).
              split; [done|]. intros j sp' v' Hj.
              apply gives_snoc in Hj as [Hj|(-> & _ & _ & ->)]; [|lia].
              pose proof (gives_lt _ _ _ _ _ Hj).
              destruct (Hmax0 _ _ _ Hj); lia.
           ++ apply Nat.leb_gt in Hle. exists i0.
              split; [apply gives_snoc; by left|]. intros j sp' v' Hj.
              apply gives_snoc in Hj as [Hj|(-> & _ & _ & ->)].
              ** by apply (Hmax0 _ _ v').
              ** fold sp. lia.
        -- exists (length l). split; [done|]. intros j sp' v' Hj.
           apply gives_snoc in Hj as [Hj|(-> & _ & _ & ->)]; [|lia].
           by apply IH in Hj.
      * destruct (foldl (merge_Sel tgt) ∅ l !! path) as [[sp0 v0]|].
        -- destruct IH as (i0 & Hg0 & Hmax0). exists i0.
           split; [apply gives_snoc; by left|]. intros j sp' v' Hj.
           apply gives_snoc in Hj as [Hj|(_ & _ & Hv' & _)]; [|congruence].
           by apply (Hmax0 _ _ v').
        -- intros i sp v Hj.
           apply gives_snoc in Hj as [Hj|(_ & _ & Hv' & _)]; [|congruence].
           by apply IH in Hj.
    + destruct (foldl (merge_Sel tgt) ∅ l !! path) as [[sp0 v0]|].
      * destruct IH as (i0 & Hg0 & Hmax0). exists i0.
        split; [apply gives_snoc; by left|]. intros j sp' v' Hj.
        apply gives_snoc in Hj as [Hj|(_ & Hm' & _)]; [|congruence].
        by apply (Hmax0 _ _ v').
      * intros i sp v Hj.
        apply gives_snoc in Hj as [Hj|(_ & Hm' & _)]; [|congruence].
        by apply IH in Hj.
Qed.

Lemma gives_functional (sheet : Sheet) (path : string) (i sp1 sp2 : nat)
    (v1 v2 : string) :
  gives sheet tgt path i sp1 v1 -> gives sheet tgt path i sp2 v2 ->
  sp1 = sp2 /\ v1 = v2.
Proof.
  intros (s1 & Hi1 & _ & Hv1 & ->) (s2 & Hi2 & _ & Hv2 & ->).
  simplify_eq. split; [done | congruence].
Qed.

(** The resolved map holds, for each path, the value chosen among the
    matching selectors, and nothing else. *)
Lemma resolve_chosen (sheet : Sheet) (path v : string) :
  resolve sheet tgt !! path = Some v <-> chosen sheet tgt path v.
Proof.
  unfold resolve, chosen. rewrite lookup_fmap.
  pose proof (foldl_merge_Sel sheet path) as Hfold.
  destruct (foldl (merge_Sel tgt) ∅ sheet !! path) as [[sp0 v0]|];
    cbn [fmap option_fmap option_map snd].
  - destruct Hfold as (i0 & Hg0 & Hmax0). split.
    + intros [= <-]. by exists i0, sp0.
    + intros (i & sp & Hg & Hmax). f_equal.
      destruct (Hmax0 _ _ _ Hg) as [Hlt|[-> Hle]];
        destruct (Hmax _ _ _ Hg0) as [Hlt'|[Heq Hle']]; try lia.
      assert (i = i0) as -> by lia.
      by destruct (gives_functional _ _ _ _ _ _ _ Hg0 Hg).
  - split; [done|]. intros (i & sp & Hg & _). by apply Hfold in Hg.
Qed.

Lemma resolve_offered (sheet : Sheet) (path : string) :
  offered sheet tgt path <-> exists v, chosen sheet tgt path v.
Proof.
  split.
  - intros (i & sp & v & Hg).
    pose proof (foldl_merge_Sel sheet path) as Hfold.
    destruct (resolve sheet tgt !! path) as [v0|] eqn:Hr.
    + exists v0. by apply resolve_chosen.
    + unfold resolve in Hr. rewrite lookup_fmap in Hr.
      destruct (foldl (merge_Sel tgt) ∅ sheet !! path) as [[sp0 v0]|];
        [done|]. by apply Hfold in Hg.
  - intros (v & i & sp & Hg & _). by exists i, sp, v.
Qed.

End Resolution.

Section ApplyPass.

Variable convertible : Kind -> string -> bool.
Variable reportMode : bool.

Local Abbreviation assign := (applier.assign convertible reportMode).
Local Abbreviation settable := (applier.settable convertible).

Lemma settable_same_kinds (t1 t2 : Target) (p v : string) :
  same_kinds t1 t2 -> settable t1 p v = settable t2 p v.
Proof.
  intros Hk. unfold applier.settable. specialize (Hk p).
  destruct (Fields t1 !! p) as [f1|], (Fields t2 !! p) as [f2|];
    cbn in Hk; congruence.
Qed.

Lemma assign_same_kinds (st : Pass) (pv : string * string) :
  same_kinds (target (assign st pv)) (target st).
Proof.
  intros p. destruct pv as [path v]. unfold applier.assign.
  destruct (Fields (target st) !! path) as [f|] eqn:Hf; [|done].
  destruct (convertible (kind f) v); [|done].
  cbn [target set_field Fields].
  destruct (decide (path = p)) as [->|Hne].
  - by rewrite lookup_insert_eq, Hf.
  - by rewrite lookup_insert_ne.
Qed.

Lemma assign_other_path (st : Pass) (pv : string * string) (p : string) :
  p <> pv.1 ->
  Fields (target (assign st pv)) !! p = Fields (target st) !! p.
Proof.
  intros Hne. destruct pv as [path v]. cbn [fst] in Hne.
  unfold applier.assign.
  destruct (Fields (target st) !! path) as [f|]; [|done].
  destruct (convertible (kind f) v); [|done].
  cbn [target set_field Fields]. by rewrite lookup_insert_ne.
Qed.

Lemma assign_unsettable (st : Pass) (path v : string) :
  settable (target st) path v = false ->
  target (assign st (path, v)) = target st.
Proof.
  unfold applier.settable, applier.assign.
  destruct (Fields (target st) !! path) as [f|]; [|done].
  by intros ->.
Qed.

Lemma assign_outcome (st : Pass) (path v : string) :
  if settable (target st) path v
  then value <$> Fields (target (assign st (path, v))) !! path = Some v /\
       changed (assign st (path, v)) = true /\
       failures (assign st (path, v)) = failures st
  else changed (assign st (path, v)) = changed st /\
       failures (assign st (path, v)) = failures st ++ [path].
Proof.
  unfold applier.settable, applier.assign.
  destruct (Fields (target st) !! path) as [f|]; [|done].
  destruct (convertible (kind f) v); [|done].
  cbn [target set_field Fields changed failures].
  by rewrite lookup_insert_eq.
Qed.

Lemma foldl_assign (tgt : Target) (l : list (string * string)) :
  NoDup l.*1 ->
  forall st : Pass,
    same_kinds (target st) tgt ->
    let st' := foldl assign st l in
    same_kinds (target st') tgt /\
    (forall p, p ∈ failures st' <->
               p ∈ failures st \/
               exists v, (p, v) ∈ l /\ settable tgt p v = false) /\
    (changed st' = true <->
     changed st = true \/
     exists p v, (p, v) ∈ l /\ settable tgt p v = true) /\
    (forall p v, (p, v) ∈ l -> settable tgt p v = true ->
                 value <$> Fields (target st') !! p = Some v) /\
    (forall p, p ∉ l.*1 ->
               Fields (target st') !! p = Fields (target st) !! p) /\
    (forall p v, (p, v) ∈ l -> settable tgt p v = false ->
                 Fields (target st') !! p = Fields (target st) !! p).
Proof.
  induction l as [|[path v] l IH]; intros Hnd st Hk; cbn [foldl].
  - repeat split; try done.
    + intros H; by left.
    + intros [H|(v & Hin & _)]; [done|]. by apply elem_of_nil in Hin.
    + intros H; by left.
    + intros [H|(p & v & Hin & _)]; [done|]. by apply elem_of_nil in Hin.
    + intros p v Hin. by apply elem_of_nil in Hin.
  - apply NoDup_cons in Hnd as [Hfresh Hnd]. cbn [fmap list_fmap fst] in *.
    assert (Hk1 : same_kinds (target (assign st (path, v))) tgt).
    { intros p. rewrite assign_same_kinds. apply Hk. }
    destruct (IH Hnd _ Hk1) as (IHk & IHf & IHc & IHset & IHother & IHfail).
    pose proof (assign_outcome st path v) as Hout.
    rewrite (settable_same_kinds _ tgt _ _ Hk) in Hout.
    split; [exact IHk|]. split; [|split; [|split; [|split]]].
    + intros p. rewrite IHf.
      destruct (settable tgt path v) eqn:Hs.
      * destruct Hout as (_ & _ & ->). split.
        -- intros [H|(v' & Hin & Hv')]; [by left|].
           right. exists v'. split; [by right|done].
        -- intros [H|(v' & [Heq|Hin]%elem_of_cons & Hv')]; [by left| |].
           ++ simplify_eq. congruence.
           ++ right. by exists v'.
      * destruct Hout as (_ & ->). rewrite elem_of_app, list_elem_of_singleton.
        split.
        -- intros [[H| ->]|(v' & Hin & Hv')]; [by left| |].
           ++ right. exists v. split; [by left|done].
           ++ right. exists v'. split; [by right|done].
        -- intros [H|(v' & [Heq|Hin]%elem_of_cons & Hv')].
           ++ by left; left.
           ++ simplify_eq. by left; right.
           ++ right. by exists v'.
    + rewrite IHc.
      destruct (settable tgt path v) eqn:Hs.
      * destruct Hout as (_ & -> & _). split; [|by left]. intros _.
        right. exists path, v. split; [by left|done].
      * destruct Hout as (-> & _). split.
        -- intros [H|(p & v' & Hin & Hv')]; [by left|].
           right. exists p, v'. split; [by right|done].
        -- intros [H|(p & v' & [Heq|Hin]%elem_of_cons & Hv')]; [by left| |].
           ++ simplify_eq. congruence.
           ++ right. by exists p, v'.
    + intros p v' [Heq|Hin]%elem_of_cons Hs.
      * simplify_eq. rewrite IHother by done.
        rewrite Hs in Hout. by destruct Hout as (-> & _).
      * by apply IHset.
    + intros p Hp. apply not_elem_of_cons in Hp as [Hne Hp].
      rewrite IHother by done. by apply assign_other_path.
    + intros p v' [Heq|Hin]%elem_of_cons Hs.
      * simplify_eq. rewrite IHother by done.
        rewrite assign_unsettable; [done|].
        by rewrite (settable_same_kinds _ tgt).
      * rewrite (IHfail _ _ Hin Hs). apply assign_other_path.
        cbn [fst]. intros ->. apply Hfresh.
        apply list_elem_of_fmap. by exists (path, v').
Qed.

(** C7.  Apply attempts every path that a matching Sel of the sheet
    sets, with the value chosen by specificity and then by listed order:
    the path is set to that value or listed in the error, whichever other
    paths fail.  Every path that can be set is set; the error lists
    exactly the paths that could not be set, and is nil only if there is
    none; [changed] is true exactly when at least one path was set; a path
    that failed keeps its field, and so does every path that no matching
    Sel sets. *)
Theorem Apply_attempts_every_path (sheet : Sheet) (tgt : Target) :
  let r := Apply convertible sheet tgt reportMode in
  (forall path, offered sheet tgt path ->
     exists v, chosen sheet tgt path v /\
               (value <$> Fields r.1.1 !! path = Some v \/
                path ∈ default [] r.2)) /\
  (forall path v, chosen sheet tgt path v -> settable tgt path v = true ->
                  value <$> Fields r.1.1 !! path = Some v) /\
  (forall path, path ∈ default [] r.2 <->
                exists v, chosen sheet tgt path v /\
                          settable tgt path v = false) /\
  (r.2 = None <->
   forall path v, chosen sheet tgt path v -> settable tgt path v = true) /\
  (r.1.2 = true <->
   exists path v, chosen sheet tgt path v /\ settable tgt path v = true) /\
  (forall path, path ∈ default [] r.2 ->
                Fields r.1.1 !! path = Fields tgt !! path) /\
  (forall path, ~ offered sheet tgt path ->
                Fields r.1.1 !! path = Fields tgt !! path).
Proof.
  intros r. subst r. unfold Apply, run. cbn [fst snd].
  set (resolved := resolve sheet tgt).
  assert (Hres : forall path v,
             resolved !! path = Some v <-> chosen sheet tgt path v)
    by (intros path v; apply resolve_chosen).
  destruct (foldl_assign tgt (map_to_list resolved)
              (NoDup_fst_map_to_list resolved)
              (mkPass tgt false [] []))
    as (_ & Hf & Hc & Hset & Hother & Hkeep); [done|].
  cbn [failures changed target] in Hf, Hc, Hother, Hkeep.
  set (st' := foldl assign _ _) in *.
  assert (Hfail : forall path,
             path ∈ failures st' <->
             exists v, chosen sheet tgt path v /\
                       settable tgt path v = false).
  { intros path. rewrite Hf. split.
    - intros [Hin|(v & Hin & Hv)]; [by apply elem_of_nil in Hin|].
      exists v. by rewrite <- Hres, <- elem_of_map_to_list.
    - intros (v & Hin & Hv). right. exists v.
      by rewrite elem_of_map_to_list, Hres. }
  assert (Herr : forall path,
             path ∈ default [] match failures st' with
                               | [] => None
                               | paths => Some paths
                               end <-> path ∈ failures st')
    by (intros path; by destruct (failures st')).
  assert (Hdone : forall path v,
             chosen sheet tgt path v -> settable tgt path v = true ->
             value <$> Fields (target st') !! path = Some v).
  { intros path v Hin Hs. apply Hset; [|done].
    by rewrite elem_of_map_to_list, Hres. }
  split; [|split; [|split; [|split; [|split; [|split]]]]].
  - intros path [v Hv]%resolve_offered. exists v. split; [done|].
    destruct (settable tgt path v) eqn:Hs.
    + left. by apply Hdone.
    + right. apply Herr, Hfail. by exists v.
  - exact Hdone.
  - intros path. by rewrite Herr.
  - split.
    + intros Hnone path v Hin.
      destruct (settable tgt path v) eqn:Hs; [done|].
      assert (Hp : path ∈ failures st') by (apply Hfail; eauto).
      destruct (failures st'); [by apply elem_of_nil in Hp | done].
    + intros Hall. destruct (failures st') as [|p ps] eqn:Hfs; [done|].
      assert (Hp : p ∈ p :: ps) by (by left).
      apply Hfail in Hp as (v & Hin & Hv). rewrite (Hall _ _ Hin) in Hv.
      done.
  - rewrite Hc. split.
    + intros [?|(p & v & Hin & Hv)]; [done|]. exists p, v.
      by rewrite <- Hres, <- elem_of_map_to_list.
    + intros (p & v & Hin & Hv). right. exists p, v.
      by rewrite elem_of_map_to_list, Hres.
  - intros path (v & Hin & Hv)%Herr%Hfail.
    apply (Hkeep path v); [|done].
    by rewrite elem_of_map_to_list, Hres.
  - intros path Hno. apply Hother.
    intros ([p v] & -> & Hin%elem_of_map_to_list)%list_elem_of_fmap.
    cbn [fst] in Hno. apply Hno, resolve_offered. exists v.
    by apply Hres.
Qed.

End ApplyPass.

(** C7, witness.  A class selector listed before a type selector, both
    matching the target: the class value of the common path is set, though
    the type selector comes later, and the two paths that cannot be set
    are listed and keep their fields. *)
Lemma Apply_attempts_every_path_witness :
  let tgt := mkTarget "Layer" "Hidden1" ["Fast"]
               (<["Act.Gain" := mkField KNumeric "1"]>
                  (<["Learn.On" := mkField KBool "true"]> ∅)) in
  let sheet := [mkSel ".Fast" ""
                  (<["Act.Gain" := "3"]> (<["Act.Missing" := "4"]> ∅));
                mkSel "Layer" ""
                  (<["Act.Gain" := "2"]> (<["Learn.On" := "maybe"]> ∅))] in
  let r := Apply convertible_basic sheet tgt false in
  value <$> Fields r.1.1 !! "Act.Gain" = Some "3" /\
  r.1.2 = true /\
  "Act.Missing" ∈ default [] r.2 /\
  "Learn.On" ∈ default [] r.2 /\
  Fields r.1.1 !! "Learn.On" = Some (mkField KBool "true").
Proof.
  intros tgt sheet r.
  destruct (Apply_attempts_every_path convertible_basic false sheet tgt)
    as (_ & Hset & Hfail & _ & Hchanged & Hkeep & _).
  fold r in Hset, Hfail, Hchanged, Hkeep.
  assert (Hgain : chosen sheet tgt "Act.Gain" "3")
    by (apply resolve_chosen; vm_compute; reflexivity).
  assert (Hmissing : chosen sheet tgt "Act.Missing" "4")
    by (apply resolve_chosen; vm_compute; reflexivity).
  assert (Hon : chosen sheet tgt "Learn.On" "maybe")
    by (apply resolve_chosen; vm_compute; reflexivity).
  assert (Hlisted : "Learn.On" ∈ default [] r.2)
    by (apply Hfail; exists "maybe"; split; [exact Hon | reflexivity]).
  split; [apply Hset; [exact Hgain | reflexivity]|].
  split; [apply Hchanged; exists "Act.Gain", "3";
          split; [exact Hgain | reflexivity]|].
  split; [apply Hfail; exists "4"; split; [exact Hmissing | reflexivity]|].
  split; [exact Hlisted|].
  rewrite (Hkeep _ Hlisted). reflexivity.
Defined.

(** A sheet whose two selectors both match the target, one with a path
    the target has and one with a path it lacks and a value that does not
    convert: the valid path is set and both failures are listed. *)
Lemma Apply_partial_failure_example :
  let tgt := mkTarget "Layer" "Hidden1" ["Fast"]
               (<["Act.Gain" := mkField KNumeric "1"]>
                  (<["Learn.On" := mkField KBool "true"]> ∅)) in
  let sheet := [mkSel "Layer" "" (<["Act.Gain" := "2"]> ∅);
                mkSel ".Fast" ""
                  (<["Act.Missing" := "3"]> (<["Learn.On" := "maybe"]> ∅))] in
  let r := Apply convertible_basic sheet tgt false in
  value <$> Fields r.1.1 !! "Act.Gain" = Some "2" /\
  value <$> Fields r.1.1 !! "Learn.On" = Some "true" /\
  r.1.2 = true /\
  (exists paths, r.2 = Some paths /\ "Act.Missing" ∈ paths /\
                 "Learn.On" ∈ paths /\ length paths = 2%nat).
Proof.
  vm_compute. repeat split. eexists. split; [reflexivity|].
  repeat split; repeat constructor.
Qed.
